(** * OpenCodeBlocks: the Code block, its run-state invalidation, its output
    protocol and the graph document, as a shallow embedding.

    Sources embedded:
    - [opencodeblocks/blocks/codeblock.py]           (the BFS-invalidation Code block)
    - [opencodeblocks/graphics/blocks/codeblock.py]  (the simpler Code block)
    - [tests/unit/scene/test_ipynb_conversion.py]    (the conversion tests)

    Python [str] values are modelled by [string]: a sequence of characters,
    one [ascii] per character (code points below 256).  Every marker the
    code looks for (newline, backspace, carriage return, the "<img>" and
    "<div>" prefixes, '#') is such a character. *)

From Stdlib Require Import ZArith Lia Ascii String.
From stdpp Require Import base option list gmap strings.

Local Open Scope Z_scope.

(** ** Python string primitives *)

Module PyStr.

Definition LF : ascii := "010"%char.
Definition BS : ascii := "008"%char.
Definition CR : ascii := "013"%char.

(** The characters of a string, in order. *)
Fixpoint chars (s : string) : list ascii :=
  match s with
  | EmptyString => []
  | String c s' => c :: chars s'
  end.

(** [s.startswith(p)] *)
Fixpoint startswith (p s : string) : bool :=
  match p with
  | EmptyString => true
  | String a p' =>
      match s with
      | EmptyString => false
      | String b s' => if decide (a = b) then startswith p' s' else false
      end
  end.

(** [s[n:]] for [n >= 0] *)
Fixpoint slice_from (n : nat) (s : string) : string :=
  match n with
  | O => s
  | S n' => match s with
            | EmptyString => EmptyString
            | String _ s' => slice_from n' s'
            end
  end.

(** [s.find(c) != -1] for a one-character [c] *)
Fixpoint contains (c : ascii) (s : string) : bool :=
  match s with
  | EmptyString => false
  | String a s' => if decide (a = c) then true else contains c s'
  end.

(** [s.split(sep)] for a one-character separator: never the empty list. *)
Fixpoint split (sep : ascii) (s : string) : list string :=
  match s with
  | EmptyString => [EmptyString]
  | String a s' =>
      if decide (a = sep) then EmptyString :: split sep s'
      else match split sep s' with
           | [] => [String a EmptyString]
           | l :: ls => String a l :: ls
           end
  end.

(** [sep.join(l)] *)
Fixpoint join (sep : string) (l : list string) : string :=
  match l with
  | [] => EmptyString
  | [x] => x
  | x :: l' => x +:+ sep +:+ join sep l'
  end.

(** [l[:-1]] and [l[-1]] *)
Definition all_but_last (l : list string) : list string := removelast l.
Definition last_item (l : list string) : string := List.last l EmptyString.

(** [s.replace(old, new)] for a non-empty [old]: the non-overlapping
    occurrences of [old], scanned from the left, are replaced.  [skip]
    counts the characters of a matched occurrence still to be passed. *)
Fixpoint replace_from (skip : nat) (old new s : string) : string :=
  match s with
  | EmptyString => EmptyString
  | String a s' =>
      match skip with
      | S k => replace_from k old new s'
      | O =>
          if startswith old s
          then new +:+ replace_from (Nat.pred (String.length old)) old new s'
          else String a (replace_from O old new s')
      end
  end.

Definition replace (old new s : string) : string := replace_from O old new s.

End PyStr.

(** ** Data model *)

Inductive SocketType := input | output.
Inductive FlowType := data | exe.

#[global] Instance SocketType_eq_dec : EqDecision SocketType.
Proof. solve_decision. Defined.
#[global] Instance FlowType_eq_dec : EqDecision FlowType.
Proof. solve_decision. Defined.

(** A socket of a block: its id, whether it is an input or an output, and
    whether it carries data or the execution flow. *)
Record OCBSocket := mkSocket {
  socket_id : Z;
  socket_type : SocketType;
  flow_type : FlowType;
}.

(** An edge names its two ends by block id and socket id. *)
Record OCBEdge := mkEdge {
  source_block : Z;
  source_socket : Z;
  destination_block : Z;
  destination_socket : Z;
}.

(** The attributes of [OCBCodeBlock] that its setters and handlers read or
    write.  [output_panel] is [None] until [init_output_panel] has run
    (the setter asks [hasattr(self, "output_panel")]); [splitter] is the
    size pair held by the Qt splitter ([setSizes] / [sizes]). *)
Record CodeState := mkCode {
  _source : string;
  _stdout : string;
  _cached_stdout : string;
  source_editor : string;
  output_panel : option string;
  output_closed : bool;
  _splitter_size : list Z;
  splitter : list Z;
}.

Definition with_source (v : string) (c : CodeState) : CodeState :=
  mkCode v (_stdout c) (_cached_stdout c) (source_editor c) (output_panel c)
         (output_closed c) (_splitter_size c) (splitter c).
Definition with_stdout (v : string) (c : CodeState) : CodeState :=
  mkCode (_source c) v (_cached_stdout c) (source_editor c) (output_panel c)
         (output_closed c) (_splitter_size c) (splitter c).
Definition with_cached_stdout (v : string) (c : CodeState) : CodeState :=
  mkCode (_source c) (_stdout c) v (source_editor c) (output_panel c)
         (output_closed c) (_splitter_size c) (splitter c).
Definition with_source_editor (v : string) (c : CodeState) : CodeState :=
  mkCode (_source c) (_stdout c) (_cached_stdout c) v (output_panel c)
         (output_closed c) (_splitter_size c) (splitter c).
Definition with_output_panel (v : option string) (c : CodeState) : CodeState :=
  mkCode (_source c) (_stdout c) (_cached_stdout c) (source_editor c) v
         (output_closed c) (_splitter_size c) (splitter c).
Definition with_output_closed (v : bool) (c : CodeState) : CodeState :=
  mkCode (_source c) (_stdout c) (_cached_stdout c) (source_editor c)
         (output_panel c) v (_splitter_size c) (splitter c).
Definition with_splitter_size (v : list Z) (c : CodeState) : CodeState :=
  mkCode (_source c) (_stdout c) (_cached_stdout c) (source_editor c)
         (output_panel c) (output_closed c) v (splitter c).
Definition with_splitter (v : list Z) (c : CodeState) : CodeState :=
  mkCode (_source c) (_stdout c) (_cached_stdout c) (source_editor c)
         (output_panel c) (output_closed c) (_splitter_size c) v.

(** The attribute values [__init__] leaves behind when it is given the
    empty source. *)
Definition new_code_state : CodeState :=
  mkCode EmptyString EmptyString EmptyString EmptyString (Some EmptyString)
         true [1; 1] [1; 0].

(** ** Output protocol of the Code block ([blocks/codeblock.py]) *)

Module OCBCodeBlock.

Import PyStr.

Definition DQUOTE : string := String "034"%char EmptyString.
Definition NEWLINE : string := String LF EmptyString.

(** [b64_to_html]: [f'<img src="data:image/png;base64,{image}">'] *)
Definition b64_to_html (image : string) : string :=
  "<img src=" +:+ DQUOTE +:+ "data:image/png;base64," +:+ image
    +:+ DQUOTE +:+ ">".

(** The first two statements of [str_to_html]: backspaces, then carriage
    returns, are replaced by the empty string. *)
Definition remove_controls (text : string) : string :=
  replace (String CR EmptyString) EmptyString
    (replace (String BS EmptyString) EmptyString text).

Section WithConverter.

(** [conv.convert] of ansi2html's [Ansi2HTMLConverter], an external
    library: any function from text to markup. *)
Variable conv_convert : string → string.

Definition str_to_html (text : string) : string :=
  let text := remove_controls text in
  let text := conv_convert text in
  replace "background-color: #000000" "background-color: transparent" text.

(** The text the [stdout] setter hands to [output_panel.setText]. *)
Definition display_text (value : string) : string :=
  if startswith "<img>" value then b64_to_html (slice_from 5 value)
  else if startswith "<div>" value then value
  else str_to_html value.

(** [stdout.setter] *)
Definition stdout_setter (value : string) (self : CodeState) : CodeState :=
  let self := with_stdout value self in
  match output_panel self with
  | None => self
  | Some _ =>
      let self := with_output_panel (Some (display_text value)) self in
      if output_closed self && bool_decide (value ≠ EmptyString) then
        with_splitter (_splitter_size self) (with_output_closed false self)
      else if negb (output_closed self) && bool_decide (value = EmptyString) then
        with_splitter [1; 0]
          (with_output_closed true (with_splitter_size (splitter self) self))
      else self
  end.

(** [handle_stdout] *)
Definition handle_stdout (value : string) (self : CodeState) : CodeState :=
  if contains LF value then
    let lines := split LF value in
    let self :=
      with_cached_stdout
        (_cached_stdout self +:+ (join NEWLINE (all_but_last lines) +:+ NEWLINE))
        self in
    let value := last_item lines in
    stdout_setter (_cached_stdout self +:+ value) self
  else
    stdout_setter (_cached_stdout self +:+ value) self.

(** [handle_image] *)
Definition handle_image (image : string) (self : CodeState) : CodeState :=
  stdout_setter ("<img>" +:+ image) self.

End WithConverter.

End OCBCodeBlock.

(** ** Blocks and the scene *)

(** The attributes of the simpler Code block of
    [graphics/blocks/codeblock.py] that its [source] setter touches;
    [s_source_editor] is [None] while the attribute does not exist. *)
Record SimpleCodeState := mkSimple {
  s_source : string;
  s_source_editor : option string;
}.

Inductive BlockType := code | markdown.

#[global] Instance BlockType_eq_dec : EqDecision BlockType.
Proof. solve_decision. Defined.

Section Graph.

(** The attributes of the Code block class in use: [CodeState] for
    [blocks/codeblock.py], [SimpleCodeState] for
    [graphics/blocks/codeblock.py]. *)
Context {C : Type}.

Inductive Payload :=
| Code (c : C)
| Markdown (text : string).

Record Block := mkBlock {
  title : string;
  sockets : list OCBSocket;
  has_been_run : bool;
  payload : Payload;
}.

Definition with_title (v : string) (b : Block) : Block :=
  mkBlock v (sockets b) (has_been_run b) (payload b).
Definition with_sockets (v : list OCBSocket) (b : Block) : Block :=
  mkBlock (title b) v (has_been_run b) (payload b).
Definition with_has_been_run (v : bool) (b : Block) : Block :=
  mkBlock (title b) (sockets b) v (payload b).
Definition with_payload (v : Payload) (b : Block) : Block :=
  mkBlock (title b) (sockets b) (has_been_run b) v.

Definition block_type (b : Block) : BlockType :=
  match payload b with Code _ => code | Markdown _ => markdown end.

(** Apply a method of the Code block to the block's own attributes. *)
Definition on_code (f : C → C) (b : Block) : Block :=
  match payload b with
  | Code c => with_payload (Code (f c)) b
  | Markdown _ => b
  end.

(** The live graph: the blocks, keyed by id, and the edges in order.  A
    Python reference to a block object is the key of that block. *)
Record Scene := mkScene {
  blocks : gmap Z Block;
  edges : list OCBEdge;
}.

Definition with_blocks (v : gmap Z Block) (sc : Scene) : Scene :=
  mkScene v (edges sc).

Definition empty_scene : Scene := mkScene ∅ [].

(** *** Execution-flow graph *)

(** [s] is the id of an execution-flow output socket of block [b]. *)
Definition is_exe_output (sc : Scene) (b s : Z) : bool :=
  match blocks sc !! b with
  | Some blk =>
      existsb (λ k, bool_decide (socket_id k = s)
                    && bool_decide (socket_type k = output)
                    && bool_decide (flow_type k = exe))
              (sockets blk)
  | None => false
  end.

(** The adjacency view of the execution flow: one pair (producer,
    consumer) per edge that leaves an execution-flow output socket. *)
Definition exe_links (sc : Scene) : list (Z * Z) :=
  omap (λ e, if is_exe_output sc (source_block e) (source_socket e)
             then Some (source_block e, destination_block e)
             else None)
       (edges sc).

End Graph.

Arguments Payload : clear implicits.
Arguments Block : clear implicits.
Arguments Scene : clear implicits.

(** ** Breadth-first traversal of the execution flow *)

Definition successors (links : list (Z * Z)) (b : Z) : list Z :=
  (filter (λ l, l.1 = b) links).*2.

(** The traversal proper: [to_visit] is the queue, [visited] the blocks
    already taken, in the order they were taken.  A block is expanded once. *)
Fixpoint bfs_loop (links : list (Z * Z)) (fuel : nat)
                  (to_visit visited : list Z) : list Z :=
  match fuel with
  | O => visited
  | S fuel' =>
      match to_visit with
      | [] => visited
      | b :: rest =>
          if bool_decide (b ∈ visited)
          then bfs_loop links fuel' rest visited
          else bfs_loop links fuel' (rest ++ successors links b) (visited ++ [b])
      end
  end.

(** What is left for the traversal to do: the queue, and the links whose
    producer has not been expanded yet. *)
Definition potential (links : list (Z * Z)) (to_visit visited : list Z) : nat :=
  length to_visit + length (filter (λ l, l.1 ∉ visited) links).

(** Modelled from the spec: [custom_bfs(self, reverse=True)] of
    [OCBExecutableBlock] (opencodeblocks/blocks/executableblock.py is not
    among the sources).  The spec has it perform "a breadth-first traversal
    of the execution-flow edge graph starting at [block] [...] (following
    edges toward consumers), visiting each reachable block at most once",
    the origin included.  Every queue entry but the first comes from a
    link whose producer is expanded once, so one unit of fuel per link
    plus one is enough to empty the queue. *)
Definition custom_bfs {C} (sc : Scene C) (start_node : Z) : list Z :=
  let links := exe_links sc in
  bfs_loop links (S (length links)) [start_node] [].

(** ** The [source] property of the two Code blocks *)

(** [block.has_been_run = False] on the block object [b]. *)
Definition set_not_run {C} (sc : Scene C) (b : Z) : Scene C :=
  with_blocks (alter (with_has_been_run false) b (blocks sc)) sc.

Module BFSVariant.

(** [source.setter] of [blocks/codeblock.py]. *)
Definition source_setter (self : Z) (value : string)
                         (sc : Scene CodeState) : Scene CodeState :=
  match blocks sc !! self with
  | Some blk =>
      match payload blk with
      | Code c =>
          if bool_decide (value ≠ _source c) then
            let output_blocks := custom_bfs sc self in
            let sc := foldl set_not_run sc output_blocks in
            with_blocks
              (alter (λ b, on_code (with_source value)
                             (on_code (with_source_editor value)
                                (with_has_been_run false
                                   (on_code (with_source value) b))))
                     self (blocks sc))
              sc
          else sc
      | Markdown _ => sc
      end
  | None => sc
  end.

(** [source] (the getter). *)
Definition source (self : Z) (sc : Scene CodeState) : option string :=
  match blocks sc !! self with
  | Some blk =>
      match payload blk with Code c => Some (_source c) | Markdown _ => None end
  | None => None
  end.

End BFSVariant.

Module SimpleVariant.

(** [source.setter] of [graphics/blocks/codeblock.py] (the class body
    defines it twice, with the same statements; the later one is bound). *)
Definition source_setter (self : Z) (value : string)
                         (sc : Scene SimpleCodeState) : Scene SimpleCodeState :=
  with_blocks
    (alter (on_code (λ s,
              let s := mkSimple value (s_source_editor s) in
              match s_source_editor s with
              | Some _ => mkSimple (s_source s) (Some (s_source s))
              | None => s
              end))
           self (blocks sc))
    sc.

(** [source] (the getter). *)
Definition source (self : Z) (sc : Scene SimpleCodeState) : option string :=
  match blocks sc !! self with
  | Some blk =>
      match payload blk with Code s => Some (s_source s) | Markdown _ => None end
  | None => None
  end.

End SimpleVariant.

(** ** Reachability along the execution flow *)

(** Some edge leaves an execution-flow output socket of [a] and arrives
    at [b]. *)
Definition exe_edge {C} (sc : Scene C) (a b : Z) : Prop :=
  ∃ e, e ∈ edges sc ∧ source_block e = a ∧ destination_block e = b
       ∧ is_exe_output sc a (source_socket e) = true.

(** [b] is [a] or is reached from [a] through execution-flow edges. *)
Definition reachable {C} (sc : Scene C) (a b : Z) : Prop := rtc (exe_edge sc) a b.

(** The run state of the block [b], if there is such a block. *)
Definition run_state {C} (sc : Scene C) (b : Z) : option bool :=
  has_been_run <$> blocks sc !! b.

(** The scene as the simpler Code block class would hold it: same blocks,
    sockets, run states and edges, every Code block with its source, shown
    in its editor. *)
Definition as_simple_block (b : Block CodeState) : Block SimpleCodeState :=
  mkBlock (title b) (sockets b) (has_been_run b)
    match payload b with
    | Code c => Code (mkSimple (_source c) (Some (_source c)))
    | Markdown text => Markdown text
    end.

Definition as_simple (sc : Scene CodeState) : Scene SimpleCodeState :=
  mkScene (as_simple_block <$> blocks sc) (edges sc).

(** ** A small scene: block 1 feeds block 2 through the execution flow,
    block 3 stands alone; all three have been run. *)

Definition run_code_block (src : string) (i o : Z) : Block CodeState :=
  mkBlock "_" [mkSocket i input exe; mkSocket o output exe] true
          (Code (with_source_editor src (with_source src new_code_state))).

Definition chain_scene : Scene CodeState :=
  mkScene (<[1 := run_code_block "a = 1" 10 11]>
            (<[2 := run_code_block "b = a" 20 21]>
              (<[3 := run_code_block "c = 0" 30 31]> ∅)))
          [mkEdge 1 11 2 20].

(** ** Serialized documents *)

(** The values found in a serialized block: strings, ids, and the list of
    the block's serialized sockets (id, socket type, flow type). *)
Inductive JValue :=
| JStr (s : string)
| JInt (z : Z)
| JSockets (l : list OCBSocket).

Definition as_str (v : JValue) : option string :=
  match v with JStr s => Some s | _ => None end.
Definition as_int (v : JValue) : option Z :=
  match v with JInt z => Some z | _ => None end.
Definition as_sockets (v : JValue) : option (list OCBSocket) :=
  match v with JSockets l => Some l | _ => None end.

(** The persisted document: the serialized blocks and the edges. *)
Record Document := mkDocument {
  doc_blocks : list (gmap string JValue);
  doc_edges : list OCBEdge;
}.

(** The socket ids of a scene, block by block. *)
Definition socket_ids {C} (sc : Scene C) : list Z :=
  map_to_list (blocks sc) ≫= (λ kb, socket_id <$> sockets kb.2).

(** Every id in use in a scene. *)
Definition scene_ids {C} (sc : Scene C) : gset Z :=
  dom (blocks sc) ∪ list_to_set (socket_ids sc).

(** New ids for the sockets [socks], none of them in [used]; the old id
    of each socket is recorded with its new one. *)
Fixpoint renew_sockets (used : gset Z) (socks : list OCBSocket)
                       (hashmap : gmap Z Z) : list OCBSocket * gmap Z Z :=
  match socks with
  | [] => ([], hashmap)
  | s :: rest =>
      let i := fresh used in
      let '(rest', hashmap') :=
        renew_sockets ({[i]} ∪ used) rest (<[socket_id s := i]> hashmap) in
      (mkSocket i (socket_type s) (flow_type s) :: rest', hashmap')
  end.

Section Serialization.

Variable conv_convert : string → string.

(** The table of block type names ([ipynb_conversion_constants.py] is
    not among the sources): any table. *)
Variable BLOCK_TYPE_TO_NAME : BlockType → string.

(** [OCBBlock.DEFAULT_DATA] ([blocks/block.py] is not among the
    sources): any table. *)
Variable OCBBlock_DEFAULT_DATA : gmap string JValue.

(** Modelled from the spec: [complete_with_default] of the serializable
    base class, not among the sources; "missing optional fields are
    filled from documented per-variant defaults before use".  [defaults]
    is the [DEFAULT_DATA] attribute of the object's class. *)
Definition complete_with_default (defaults data : gmap string JValue)
    : gmap string JValue :=
  data ∪ defaults.

(** Modelled from the spec: [OCBBlock.serialize], not among the sources;
    the fields of a block in the persisted format of the spec's
    section 6. *)
Definition OCBBlock_serialize (self : Z) (blk : Block CodeState)
    : gmap string JValue :=
  <["id" := JInt self]>
    (<["title" := JStr (title blk)]>
       (<["block_type" := JStr (BLOCK_TYPE_TO_NAME (block_type blk))]>
          (<["sockets" := JSockets (sockets blk)]> ∅))).

(** Modelled from the spec: [OCBBlock.deserialize], not among the
    sources.  With [restore_id] the block takes the id, and its sockets
    the ids, of the document; without, "new ids are generated and an
    id-remapping is recorded".  [None] stands for a raised exception. *)
Definition OCBBlock_deserialize (self : Z) (data : gmap string JValue)
    (hashmap : gmap Z Z) (restore_id : bool) (sc : Scene CodeState)
    : option (Scene CodeState * gmap Z Z) :=
  blk ← blocks sc !! self;
  old_id ← data !! "id" ≫= as_int;
  new_title ← data !! "title" ≫= as_str;
  socks ← data !! "sockets" ≫= as_sockets;
  if restore_id then
    let blk := with_sockets socks (with_title new_title blk) in
    Some (with_blocks (<[old_id := blk]> (delete self (blocks sc))) sc,
          foldr (λ s h, <[socket_id s := socket_id s]> h)
                (<[old_id := old_id]> hashmap) socks)
  else
    let '(socks', hashmap') :=
      renew_sockets (scene_ids sc) socks (<[old_id := self]> hashmap) in
    let blk := with_sockets socks' (with_title new_title blk) in
    Some (with_blocks (<[self := blk]> (blocks sc)) sc, hashmap').

(** *** [OCBCodeBlock] ([blocks/codeblock.py]) *)

(** [__init__] binds [DEFAULT_DATA], the defaults of the base class
    with the empty string added for ["source"], to a name local to
    [__init__], which nothing reads. *)
Definition init_local_DEFAULT_DATA : gmap string JValue :=
  <["source" := JStr EmptyString]> OCBBlock_DEFAULT_DATA.

(** [self.DEFAULT_DATA] for a Code block: the class body of
    [OCBCodeBlock] assigns no [DEFAULT_DATA], so the attribute is the one
    inherited from [OCBBlock]. *)
Definition OCBCodeBlock_DEFAULT_DATA : gmap string JValue :=
  OCBBlock_DEFAULT_DATA.

(** [serialize] *)
Definition OCBCodeBlock_serialize (self : Z) (blk : Block CodeState)
    : option (gmap string JValue) :=
  match payload blk with
  | Code c =>
      let base_dict := OCBBlock_serialize self blk in
      let base_dict := <["source" := JStr (_source c)]> base_dict in
      let base_dict := <["stdout" := JStr (_stdout c)]> base_dict in
      Some base_dict
  | Markdown _ => None
  end.

(** [setattr(self, dataname, value)] for the two properties that
    [deserialize] assigns; a value that is not a string makes the setter
    raise. *)
Definition setattr (self : Z) (dataname : string) (value : JValue)
    (sc : Scene CodeState) : option (Scene CodeState) :=
  s ← as_str value;
  if decide (dataname = "source") then
    Some (BFSVariant.source_setter self s sc)
  else if decide (dataname = "stdout") then
    Some (with_blocks
            (alter (on_code (OCBCodeBlock.stdout_setter conv_convert s))
                   self (blocks sc))
            sc)
  else None.

(** [deserialize] *)
Definition OCBCodeBlock_deserialize (self : Z) (data : gmap string JValue)
    (hashmap : gmap Z Z) (restore_id : bool) (sc : Scene CodeState)
    : option (Scene CodeState * gmap Z Z) :=
  let data := complete_with_default OCBCodeBlock_DEFAULT_DATA data in
  sc ← foldl (λ acc dataname,
                sc ← acc;
                match data !! dataname with
                | Some value => setattr self dataname value sc
                | None => Some sc
                end)
             (Some sc) ["source"; "stdout"];
  OCBBlock_deserialize self data hashmap restore_id sc.

(** *** The Markdown block and the scene *)

(** Modelled from the spec: the Markdown block, not among the sources;
    it "carries [text: string]". *)
Definition OCBMarkdownBlock_serialize (self : Z) (blk : Block CodeState)
    : option (gmap string JValue) :=
  match payload blk with
  | Markdown text => Some (<["text" := JStr text]> (OCBBlock_serialize self blk))
  | Code _ => None
  end.

(** Modelled from the spec: [deserialize] of the Markdown block, not
    among the sources; as for the Code block, the defaults are filled
    in, the text is assigned when the document has one, and the base
    class restores the rest. *)
Definition OCBMarkdownBlock_deserialize (self : Z) (data : gmap string JValue)
    (hashmap : gmap Z Z) (restore_id : bool) (sc : Scene CodeState)
    : option (Scene CodeState * gmap Z Z) :=
  let data := complete_with_default OCBBlock_DEFAULT_DATA data in
  sc ← match data !! "text" with
       | Some value =>
           s ← as_str value;
           Some (with_blocks
                   (alter (with_payload (Markdown s)) self (blocks sc)) sc)
       | None => Some sc
       end;
  OCBBlock_deserialize self data hashmap restore_id sc.

(** The block a constructor call leaves behind.  [OCBCodeBlock()]
    ([__init__] of [blocks/codeblock.py]) has an empty source and output,
    has not been run, and owns one input and one output execution-flow
    socket; the Markdown block, not among the sources, is taken with an
    empty text and no socket. *)
Definition new_block (t : BlockType) (i o : Z) : Block CodeState :=
  match t with
  | code =>
      mkBlock EmptyString [mkSocket i input exe; mkSocket o output exe] false
              (Code new_code_state)
  | markdown => mkBlock EmptyString [] false (Markdown EmptyString)
  end.

(** Modelled from the spec: block creation by the scene, not among the
    sources; a new object has an id that no live object has. *)
Definition create_block (t : BlockType) (sc : Scene CodeState)
    : Z * Scene CodeState :=
  let used := scene_ids sc in
  let k := fresh used in
  let i := fresh ({[k]} ∪ used) in
  let o := fresh ({[i]} ∪ ({[k]} ∪ used)) in
  (k, with_blocks (<[k := new_block t i o]> (blocks sc)) sc).

(** Modelled from the spec: the lookup of a serialized type name, not
    among the sources; a name outside the table is the spec's
    [UnknownBlockType]. *)
Definition block_type_of_name (name : string) : option BlockType :=
  if decide (name = BLOCK_TYPE_TO_NAME code) then Some code
  else if decide (name = BLOCK_TYPE_TO_NAME markdown) then Some markdown
  else None.

(** Modelled from the spec: [serialize] called on a block of the scene,
    dispatched on its variant. *)
Definition serialize_block (self : Z) (blk : Block CodeState)
    : option (gmap string JValue) :=
  match block_type blk with
  | code => OCBCodeBlock_serialize self blk
  | markdown => OCBMarkdownBlock_serialize self blk
  end.

(** Modelled from the spec: one block of the document is rebuilt, not
    among the sources; the block is created for the type the document
    names, then deserialized. *)
Definition deserialize_block (restore_id : bool) (data : gmap string JValue)
    (st : Scene CodeState * gmap Z Z) : option (Scene CodeState * gmap Z Z) :=
  name ← data !! "block_type" ≫= as_str;
  t ← block_type_of_name name;
  let '(k, sc) := create_block t st.1 in
  match t with
  | code => OCBCodeBlock_deserialize k data st.2 restore_id sc
  | markdown => OCBMarkdownBlock_deserialize k data st.2 restore_id sc
  end.

(** Modelled from the spec: one edge of the document is rebuilt, not
    among the sources, between the restored ends; an end that is not
    among the restored ids is the spec's [MalformedDocument]. *)
Definition deserialize_edge (hashmap : gmap Z Z) (e : OCBEdge)
    (sc : Scene CodeState) : option (Scene CodeState) :=
  sb ← hashmap !! source_block e;
  ss ← hashmap !! source_socket e;
  db ← hashmap !! destination_block e;
  ds ← hashmap !! destination_socket e;
  Some (mkScene (blocks sc) (edges sc ++ [mkEdge sb ss db ds])).

(** Modelled from the spec: [serialize()] of the scene, not among the
    sources; "a value containing all blocks (with variant-specific
    fields) and all edges". *)
Definition Scene_serialize (sc : Scene CodeState) : option Document :=
  bs ← mapM (λ kb, serialize_block kb.1 kb.2) (map_to_list (blocks sc));
  Some (mkDocument bs (edges sc)).

(** Modelled from the spec: [deserialize(document, restore_ids)] of the
    scene, not among the sources; it "rebuilds blocks and edges", here
    onto [sc]. *)
Definition Scene_deserialize (doc : Document) (restore_id : bool)
    (sc : Scene CodeState) : option (Scene CodeState) :=
  st ← foldl (λ acc data, acc ≫= deserialize_block restore_id data)
             (Some (sc, ∅)) (doc_blocks doc);
  foldl (λ acc e, acc ≫= deserialize_edge st.2 e) (Some st.1) (doc_edges doc).

End Serialization.

(** ** Documents compared *)

(** The persisted fields of two blocks agree: title, sockets, and the
    source and output of a Code block or the text of a Markdown block.
    The run state [has_been_run] is not persisted and is not compared. *)
Definition block_equiv (b b' : Block CodeState) : Prop :=
  title b = title b' ∧ sockets b = sockets b'
  ∧ match payload b, payload b' with
    | Code c, Code c' => _source c = _source c' ∧ _stdout c = _stdout c'
    | Markdown t, Markdown t' => t = t'
    | _, _ => False
    end.

(** Same block ids, same blocks up to [block_equiv] (so same socket ids
    and persisted field values), same edges. *)
Definition doc_equiv (d d' : Scene CodeState) : Prop :=
  dom (blocks d) = dom (blocks d')
  ∧ (∀ k b, blocks d !! k = Some b →
            ∃ b', blocks d' !! k = Some b' ∧ block_equiv b b')
  ∧ edges d = edges d'.

(** The invariant of a graph document on its edges: the four ids of every
    edge name blocks and sockets of the document. *)
Definition edges_resolve {C} (sc : Scene C) : Prop :=
  ∀ e, e ∈ edges sc →
    source_block e ∈ dom (blocks sc)
    ∧ destination_block e ∈ dom (blocks sc)
    ∧ source_socket e ∈ socket_ids sc
    ∧ destination_socket e ∈ socket_ids sc.

(** What loading rebuilds from a block of the document: a new block with
    the title and sockets of the document, not run, whose source and
    output were assigned through their setters. *)
Definition restored (conv_convert : string → string) (b : Block CodeState)
    : Block CodeState :=
  match payload b with
  | Code c =>
      mkBlock (title b) (sockets b) false
        (Code (OCBCodeBlock.stdout_setter conv_convert (_stdout c)
                 (with_source (_source c)
                    (with_source_editor (_source c)
                       (with_source (_source c) new_code_state)))))
  | Markdown text => mkBlock (title b) (sockets b) false (Markdown text)
  end.

(** The ids a restored block records in the id map: its own and those of
    its sockets, each standing for itself. *)
Definition record_ids (hashmap : gmap Z Z) (k : Z) (socks : list OCBSocket)
    : gmap Z Z :=
  foldr (λ s h, <[socket_id s := socket_id s]> h) (<[k := k]> hashmap) socks.

(** ** Sample inputs *)

Definition sample_names (t : BlockType) : string :=
  match t with code => "code" | markdown => "markdown" end.

(** Base defaults that, like [OCBBlock]'s, know nothing of a source. *)
Definition sample_defaults : gmap string JValue :=
  {[ "title" := JStr "_" ]}.

(** A serialized Code block with no ["source"] and no ["stdout"] key. *)
Definition data_without_source : gmap string JValue :=
  <["id" := JInt 1]>
    (<["title" := JStr "first"]>
       (<["block_type" := JStr "code"]>
          (<["sockets" := JSockets [mkSocket 10 input exe; mkSocket 11 output exe]]>
             ∅))).

(** ** Notebook conversion *)

(** A renderable output of a notebook cell: text, or a base64 image. *)
Inductive CellOutput :=
| TextOutput (text : string)
| ImageOutput (b64 : string).

(** A notebook cell; [cell_source] is [None] when the cell has no
    ["source"] field. *)
Record Cell := mkCell {
  cell_type : BlockType;
  cell_source : option string;
  cell_outputs : list CellOutput;
}.

(** A cell with the ids allocated for its block and for the block's
    execution-flow input and output sockets. *)
Record ConvertedCell := mkConverted {
  cc_id : Z;
  cc_input : Z;
  cc_output : Z;
  cc_cell : Cell;
}.

(** Id allocation: a computation that draws ids from a counter. *)
Definition Alloc (A : Type) : Type := Z → A * Z.

Definition alloc_ret {A} (x : A) : Alloc A := λ n, (x, n).
Definition alloc_bind {A B} (m : Alloc A) (f : A → Alloc B) : Alloc B :=
  λ n, let '(x, n') := m n in f x n'.

(** A freshly allocated id. *)
Definition new_id : Alloc Z := λ n, (n, n + 1).

Section Conversion.

Variable BLOCK_TYPE_TO_NAME : BlockType → string.

(** The length threshold of a title ([ipynb_conversion_constants.py] is
    not among the sources): any length. *)
Variable TITLE_MAX_LENGTH : nat.

(** [string_to_markdown_block] of the conversion tests. *)
Definition string_to_markdown_block (s : string) : gmap string JValue :=
  <["block_type" := JStr (BLOCK_TYPE_TO_NAME markdown)]>
    (<["text" := JStr s]> ∅).

(** Modelled from the spec: [is_title] of [from_ipynb_conversion.py],
    not among the sources.  "Text is a title iff it is non-empty,
    contains no newline character, does not start with a heading marker
    ([#]), and its length does not exceed a fixed threshold"; it is the
    text of a markdown block that is classified. *)
Definition is_title (block_data : gmap string JValue) : bool :=
  match block_data !! "block_type" ≫= as_str,
        block_data !! "text" ≫= as_str with
  | Some type_name, Some text =>
      if negb (bool_decide (type_name = BLOCK_TYPE_TO_NAME markdown)) then false
      else if bool_decide (text = EmptyString) then false
      else if PyStr.contains PyStr.LF text then false
      else if PyStr.startswith "#" text then false
      else if (TITLE_MAX_LENGTH <? String.length text)%nat then false
      else true
  | _, _ => false
  end.

(** Modelled from the spec: the [stdout] of a converted code cell,
    "derived from the cell's first renderable output, classified as text
    vs. base64 image"; an image goes behind the image marker. *)
Definition first_output (outputs : list CellOutput) : string :=
  match outputs with
  | [] => EmptyString
  | TextOutput text :: _ => text
  | ImageOutput b64 :: _ => "<img>" +:+ b64
  end.

(** Modelled from the spec: the serialized block of a converted cell.
    A missing source is the empty string; a markdown text that
    [is_title] is the block's title, any other block is titled
    generically. *)
Definition block_of_cell (cc : ConvertedCell) : gmap string JValue :=
  let source := default EmptyString (cell_source (cc_cell cc)) in
  let base :=
    <["id" := JInt (cc_id cc)]>
      (<["block_type" := JStr (BLOCK_TYPE_TO_NAME (cell_type (cc_cell cc)))]>
         (<["title" := JStr "_"]>
            (<["sockets" := JSockets [mkSocket (cc_input cc) input exe;
                                      mkSocket (cc_output cc) output exe]]>
               ∅))) in
  match cell_type (cc_cell cc) with
  | code =>
      <["stdout" := JStr (first_output (cell_outputs (cc_cell cc)))]>
        (<["source" := JStr source]> base)
  | markdown =>
      let block_data := <["text" := JStr source]> base in
      if is_title block_data
      then <["title" := JStr source]> block_data
      else block_data
  end.

(** Modelled from the spec: one cell becomes one block; the block and
    its two sockets receive freshly allocated ids. *)
Definition convert_cell (c : Cell) : Alloc ConvertedCell :=
  alloc_bind new_id (λ block_id,
  alloc_bind new_id (λ input_id,
  alloc_bind new_id (λ output_id,
  alloc_ret (mkConverted block_id input_id output_id c)))).

(** Modelled from the spec: the cells are converted in document order. *)
Fixpoint convert_cells (cells : list Cell) : Alloc (list ConvertedCell) :=
  match cells with
  | [] => alloc_ret []
  | c :: rest =>
      alloc_bind (convert_cell c) (λ cc,
      alloc_bind (convert_cells rest) (λ ccs,
      alloc_ret (cc :: ccs)))
  end.

(** Modelled from the spec: sequential linking, an execution-flow edge
    from each block's output socket to the next block's input socket, in
    document order. *)
Fixpoint link_cells (ccs : list ConvertedCell) : list OCBEdge :=
  match ccs with
  | a :: (b :: _) as rest =>
      mkEdge (cc_id a) (cc_output a) (cc_id b) (cc_input b) :: link_cells rest
  | _ => []
  end.

(** Modelled from the spec: [ipynb_to_ipyg] of
    [from_ipynb_conversion.py], not among the sources (its section 4.2:
    one block per cell, a fresh id for every block and socket, consecutive
    cells linked by execution-flow edges, the empty input converted to
    the empty document).  [None] is a notebook without ["cells"]. *)
Definition ipynb_to_ipyg (notebook : option (list Cell)) : Document :=
  let cells := default [] notebook in
  let '(ccs, _) := convert_cells cells 0 in
  mkDocument (block_of_cell <$> ccs) (link_cells ccs).

End Conversion.

(** The ids found in a converted document, read as the conversion test
    reads them: the ["id"] of every block that has one, and the id of
    every socket in every block's ["sockets"]. *)
Definition doc_block_ids (doc : Document) : list Z :=
  omap (λ block, block !! "id" ≫= as_int) (doc_blocks doc).

Definition doc_socket_ids (doc : Document) : list Z :=
  doc_blocks doc ≫= (λ block,
    match block !! "sockets" ≫= as_sockets with
    | Some socks => socket_id <$> socks
    | None => []
    end).

(** "Étude de cas", the accented capital being the character 201. *)
Definition etude_de_cas : string := String "201"%char "tude de cas".

Definition long_explanation : string :=
  "This is a very very very very very very very very very very very very very very very very very very long explanation".

Definition two_lines : string :=
  "New line " +:+ OCBCodeBlock.NEWLINE +:+ " Next line".

(** A notebook of three cells. *)
Definition sample_notebook : option (list Cell) :=
  Some [mkCell markdown (Some "Data Preprocessing") [];
        mkCell code (Some "x = 1") [TextOutput "1"];
        mkCell code None [ImageOutput "AAAA"]].

(** * More of the repository *)

(** ** The output panel of the Code block ([blocks/codeblock.py]) *)

(** The attributes of the Code block with [previous_splitter_size], which
    [update_output_panel] alone writes; [None] while it was never
    assigned. *)
Record PanelState := mkPanel {
  code_state : CodeState;
  previous_splitter_size : option (list Z);
}.

Module OCBCodeBlockPanel.

Section WithConverter.

Variable conv_convert : string → string.

(** [update_output_panel] *)
Definition update_output_panel (self : PanelState) : PanelState :=
if bool_decide (_stdout (code_state self) = EmptyString) then
mkPanel (with_splitter [1; 0] (with_output_closed true (code_state self)))
        (Some (splitter (code_state self)))
else self.

(** What reaches the output of a block: an assignment to [stdout], the
[stdout] and [image] signals of a worker, a geometry update. *)
Inductive OutputEvent :=
| SetStdout (value : string)
| HandleStdout (value : string)
| HandleImage (image : string)
| UpdateOutputPanel.

Definition apply_event (self : PanelState) (e : OutputEvent) : PanelState :=
match e with
| SetStdout value =>
  mkPanel (OCBCodeBlock.stdout_setter conv_convert value (code_state self))
          (previous_splitter_size self)
| HandleStdout value =>
  mkPanel (OCBCodeBlock.handle_stdout conv_convert value (code_state self))
          (previous_splitter_size self)
| HandleImage image =>
  mkPanel (OCBCodeBlock.handle_image conv_convert image (code_state self))
          (previous_splitter_size self)
| UpdateOutputPanel => update_output_panel self
end.

Definition apply_events (self : PanelState) (events : list OutputEvent)
: PanelState :=
foldl apply_event self events.

(** The [stdout] signals of one run, delivered in order. *)
Definition handle_fragments (fragments : list string) (self : CodeState)
: CodeState :=
foldl (λ self value, OCBCodeBlock.handle_stdout conv_convert value self)
    self fragments.

End WithConverter.

End OCBCodeBlockPanel.

(** The output panel is closed exactly when there is no output. *)
Definition panel_consistent (self : CodeState) : Prop :=
  output_closed self = true ↔ _stdout self = EmptyString.

(** The text is empty or ends with a newline. *)
Definition complete_lines (s : string) : Prop :=
  s = EmptyString ∨ ∃ body, s = body +:+ OCBCodeBlock.NEWLINE.

(** The fragments one after the other. *)
Definition concat_fragments (fragments : list string) : string :=
  foldr String.append EmptyString fragments.

(** ** The [source] assignment, block by block *)

(** The guard of the [source] setter: [self] is a Code block and [value]
    is not its source. *)
Definition source_changes (sc : Scene CodeState) (self : Z) (value : string)
    : bool :=
  match blocks sc !! self with
  | Some blk =>
      match payload blk with
      | Code c => bool_decide (value ≠ _source c)
      | Markdown _ => false
      end
  | None => false
  end.

(** What the last four statements of the setter do to [self]. *)
Definition commit_source (value : string) (b : Block CodeState)
    : Block CodeState :=
  on_code (with_source value)
    (on_code (with_source_editor value)
       (with_has_been_run false (on_code (with_source value) b))).

(** What assigning [value] to the source of [self] does to the block [k]. *)
Definition source_setter_effect (sc : Scene CodeState) (self : Z)
    (value : string) (k : Z) (b : Block CodeState) : Block CodeState :=
  if source_changes sc self value then
    if bool_decide (k = self) then commit_source value b
    else if bool_decide (k ∈ custom_bfs sc self) then with_has_been_run false b
    else b
  else b.

(** Two blocks that differ at most in the source, in the text of the
    source editor, and in a run state that went from run to not run. *)
Definition same_but_source_and_run (b b' : Block CodeState) : Prop :=
  title b' = title b ∧ sockets b' = sockets b
  ∧ (has_been_run b' = true → has_been_run b = true)
  ∧ match payload b, payload b' with
    | Code c, Code c' =>
        _stdout c' = _stdout c ∧ _cached_stdout c' = _cached_stdout c
        ∧ output_panel c' = output_panel c
        ∧ output_closed c' = output_closed c
        ∧ _splitter_size c' = _splitter_size c ∧ splitter c' = splitter c
    | Markdown t, Markdown t' => t' = t
    | _, _ => False
    end.

(** A Code block whose panel is open on some output. *)
Definition open_code_state : CodeState :=
  mkCode "print(1)" "1" EmptyString "print(1)" (Some "1") false [2; 1] [3; 2].

(** ** The output of the simpler Code block ([graphics/blocks/codeblock.py]) *)

Module SimpleCodeBlock.

(** The attributes its [stdout] and [image] setters read or write.  An
  attribute the setters test with [hasattr] is [None] while it does not
  exist; so is [output_panel], whose absence makes [setText] raise. *)
Record State := mkState {
_stdout : string;
_image : string;
output_closed : option bool;
previous_splitter_size : list Z;
splitter : list Z;
source_editor : option string;
output_panel : option string;
}.

Definition with_stdout (v : string) (s : State) : State :=
mkState v (_image s) (output_closed s) (previous_splitter_size s)
        (splitter s) (source_editor s) (output_panel s).
Definition with_image (v : string) (s : State) : State :=
mkState (_stdout s) v (output_closed s) (previous_splitter_size s)
        (splitter s) (source_editor s) (output_panel s).
Definition with_output_closed (v : option bool) (s : State) : State :=
mkState (_stdout s) (_image s) v (previous_splitter_size s)
        (splitter s) (source_editor s) (output_panel s).
Definition with_previous_splitter_size (v : list Z) (s : State) : State :=
mkState (_stdout s) (_image s) (output_closed s) v
        (splitter s) (source_editor s) (output_panel s).
Definition with_splitter (v : list Z) (s : State) : State :=
mkState (_stdout s) (_image s) (output_closed s) (previous_splitter_size s)
        v (source_editor s) (output_panel s).
Definition with_output_panel (v : option string) (s : State) : State :=
mkState (_stdout s) (_image s) (output_closed s) (previous_splitter_size s)
        (splitter s) (source_editor s) v.

(** [self.output_panel.setText(text)]; [None] is the [AttributeError] of a
  block without output panel. *)
Definition output_panel_setText (text : string) (self : State) : option State :=
match output_panel self with
| Some _ => Some (with_output_panel (Some text) self)
| None => None
end.

(** The opening and closing of the panel, written out in both setters. *)
Definition toggle_panel (value : string) (closed : bool) (self : State) : State :=
if closed && bool_decide (value ≠ EmptyString) then
  with_splitter (previous_splitter_size self)
    (with_output_closed (Some false) self)
else if negb closed && bool_decide (value = EmptyString) then
  with_splitter [1; 0]
    (with_output_closed (Some true)
       (with_previous_splitter_size (splitter self) self))
else self.

(** [image.setter] *)
Definition image_setter (value : string) (self : State) : option State :=
let self := with_image value self in
let self :=
  match output_closed self with
  | Some closed =>
      if bool_decide (value ≠ EmptyString)
      then toggle_panel value closed self
      else self
  | None => self
  end in
match source_editor self with
| Some _ =>
    if bool_decide (_image self ≠ EmptyString) then
      output_panel_setText
        ("<img src=" +:+ OCBCodeBlock.DQUOTE +:+ "data:image/png;base64,"
           +:+ _image self +:+ OCBCodeBlock.DQUOTE +:+ ">")
        self
    else Some self
| None => Some self
end.

Section WithConverter.

Variable conv_convert : string → string.

(** What the [stdout] setter hands to the ANSI converter. *)
Definition remove_backspaces (value : string) : string :=
PyStr.replace (String PyStr.BS EmptyString) EmptyString value.

(** [stdout.setter] *)
Definition stdout_setter (value : string) (self : State) : option State :=
let self := with_stdout value self in
let self :=
match output_closed self with
| Some closed => toggle_panel value closed self
| None => self
end in
match source_editor self with
| Some _ =>
  self ← image_setter EmptyString self;
  let text := remove_backspaces value in
  let text := conv_convert text in
  let text :=
    PyStr.replace "background-color: #000000" "background-color: #434343"
      text in
  output_panel_setText text self
| None => Some self
end.

(** [handle_stdout] *)
Definition handle_stdout (stdout : string) (self : State) : option State :=
stdout_setter stdout self.

End WithConverter.

(** [handle_image] *)
Definition handle_image (image : string) (self : State) : option State :=
image_setter image self.

(** The block is fully constructed: the attributes the setters look for
  are there. *)
Definition constructed (self : State) : Prop :=
is_Some (output_closed self) ∧ is_Some (source_editor self)
∧ is_Some (output_panel self).

(** A constructed block with its panel closed on no output. *)
Definition new_state : State :=
mkState EmptyString EmptyString (Some true) [1; 1] [1; 0]
        (Some EmptyString) (Some EmptyString).

End SimpleCodeBlock.

(** ** The sockets of a block ([graphics/block.py]) *)

Module OCBBlock.

Section WithGeometry.

(** Qt's coordinates are floating-point numbers: their type and
arithmetic are left open. *)
Variable F : Type.
Variables (fadd fsub fmul fdiv : F → F → F) (of_nat : nat → F).

(** What [OCBSocket(block=self, socket_type=..., index=...)] keeps of its
arguments ([graphics/socket.py] is not among the sources), the radius
it is drawn with, and the position [setPos] gave it, if any. *)
Record Socket := mkSocket {
socket_type : string;
index : nat;
radius : F;
pos : option (F * F);
}.

(** The attributes of [OCBBlock] that its socket methods read or write. *)
Record State := mkState {
sockets_in : list Socket;
sockets_out : list Socket;
width : F;
height : F;
title_height : F;
edge_size : F;
}.

Definition with_sockets_in (v : list Socket) (s : State) : State :=
mkState v (sockets_out s) (width s) (height s) (title_height s) (edge_size s).
Definition with_sockets_out (v : list Socket) (s : State) : State :=
mkState (sockets_in s) v (width s) (height s) (title_height s) (edge_size s).
Definition with_width (v : F) (s : State) : State :=
mkState (sockets_in s) (sockets_out s) v (height s) (title_height s)
      (edge_size s).

Definition setPos (p : F * F) (socket : Socket) : Socket :=
mkSocket (socket_type socket) (index socket) (radius socket) (Some p).

(** [get_n_sockets] *)
Definition get_n_sockets (socket_type : string) (self : State) : nat :=
if bool_decide (socket_type = "input")
then length (sockets_in self) else length (sockets_out self).

(** [get_socket_pos] *)
Definition get_socket_pos (self : State) (socket : Socket) : F * F :=
let x := if bool_decide (socket_type socket = "input")
       then of_nat 0 else width self in
let y_offset := fadd (title_height self) (fmul (of_nat 2) (radius socket)) in
let n_sockets := get_n_sockets (socket_type socket) self in
let y :=
if (n_sockets <? 2)%nat then y_offset
else
  let side_lenght :=
    fsub (fsub (fsub (height self) y_offset)
               (fmul (of_nat 2) (radius socket)))
         (edge_size self) in
  fadd y_offset
       (fdiv (fmul side_lenght (of_nat (index socket)))
             (of_nat (n_sockets - 1))) in
(x, y).

(** [update_sockets] *)
Definition update_sockets (socket_type : string) (self : State) : State :=
if bool_decide (socket_type = "input") then
with_sockets_in
  ((λ socket, setPos (get_socket_pos self socket) socket)
     <$> sockets_in self) self
else
with_sockets_out
  ((λ socket, setPos (get_socket_pos self socket) socket)
     <$> sockets_out self) self.

(** [add_socket]; [socket_radius] is the radius the socket class gives a
new socket. *)
Definition add_socket (socket_radius : F) (socket_type : string)
(self : State) : State :=
let n_sockets := get_n_sockets socket_type self in
let socket := mkSocket socket_type n_sockets socket_radius None in
if bool_decide (socket_type = "input") then
update_sockets "input"
  (with_sockets_in (sockets_in self ++ [socket]) self)
else
update_sockets "output"
  (with_sockets_out (sockets_out self ++ [socket]) self).

(** [width.setter] (the text width of the title is Qt's business). *)
Definition width_setter (value : F) (self : State) : State :=
update_sockets "output" (update_sockets "input" (with_width value self)).

(** What happens to the sockets of a block: a socket of some type is
added, or the width is assigned. *)
Inductive SocketEvent :=
| AddSocket (socket_radius : F) (socket_type : string)
| SetWidth (value : F).

Definition apply_socket_event (self : State) (e : SocketEvent) : State :=
match e with
| AddSocket r t => add_socket r t self
| SetWidth v => width_setter v self
end.

(** The sockets of a list are numbered from 0 in order. *)
Definition numbered (l : list Socket) : Prop :=
∀ i socket, l !! i = Some socket → index socket = i.

(** The number of sockets [events] add on the input side, and on the
other side. *)
Definition adds_input (e : SocketEvent) : bool :=
match e with
| AddSocket _ t => bool_decide (t = "input")
| SetWidth _ => false
end.

Definition adds_output (e : SocketEvent) : bool :=
match e with
| AddSocket _ t => bool_decide (t ≠ "input")
| SetWidth _ => false
end.

Definition inputs_added (events : list SocketEvent) : nat :=
length (filter (λ e, adds_input e = true) events).

Definition outputs_added (events : list SocketEvent) : nat :=
length (filter (λ e, adds_output e = true) events).

End WithGeometry.

End OCBBlock.

(** The sockets of a block are in order on each side, the input side
    holds the sockets of type "input" and the other side all the others,
    and every socket sits where [get_socket_pos] puts it in the block as
    it is now. *)
Definition sockets_in_order {F : Type} (fadd fsub fmul fdiv : F → F → F)
    (of_nat : nat → F) (self : OCBBlock.State F) : Prop :=
  OCBBlock.numbered F (OCBBlock.sockets_in F self)
  ∧ OCBBlock.numbered F (OCBBlock.sockets_out F self)
  ∧ (∀ socket, socket ∈ OCBBlock.sockets_in F self →
       OCBBlock.socket_type F socket = "input"
       ∧ OCBBlock.pos F socket
         = Some (OCBBlock.get_socket_pos F fadd fsub fmul fdiv of_nat self socket))
  ∧ (∀ socket, socket ∈ OCBBlock.sockets_out F self →
       OCBBlock.socket_type F socket ≠ "input"
       ∧ OCBBlock.pos F socket
         = Some (OCBBlock.get_socket_pos F fadd fsub fmul fdiv of_nat self socket)).

(** ** The coherence checks of the conversion test
    ([tests/unit/scene/test_ipynb_conversion.py]) *)

#[global] Instance OCBSocket_eq_dec : EqDecision OCBSocket.
Proof. solve_decision. Defined.
#[global] Instance JValue_eq_dec : EqDecision JValue.
Proof. solve_decision. Defined.

Module CoherenceTest.

(** The state of checks 3 and 4 of [real_notebook_is_coherent]: whether
  every [check.equal] so far held, and the two sets of ids, each kept as
  the list of what was added to it. *)
Record CheckState := mkCheck {
passed : bool;
block_id_set : list JValue;
socket_id_set : list Z;
}.

(** The body of [for socket in block["sockets"]]. *)
Definition check_socket (st : CheckState) (socket : OCBSocket) : CheckState :=
mkCheck (passed st && bool_decide (socket_id socket ∉ socket_id_set st))
        (block_id_set st)
        (socket_id socket :: socket_id_set st).

(** The body of [for block in ipyg_data["blocks"]].  [None] is an
  exception: a list is not hashable, an integer is not iterable.  The
  "sockets" of a block may be a string: its characters hold no ["id"]. *)
Definition check_block (st : CheckState) (block : gmap string JValue)
  : option CheckState :=
st ← match block !! "id" with
     | None => Some st
     | Some (JSockets _) => None
     | Some id =>
         Some (mkCheck (passed st && bool_decide (id ∉ block_id_set st))
                       (id :: block_id_set st)
                       (socket_id_set st))
     end;
match block !! "sockets" with
| None => Some st
| Some (JSockets socks) => Some (foldl check_socket st socks)
| Some (JStr _) => Some st
| Some (JInt _) => None
end.

(** The body of [for edge in ipyg_data["edges"]]. *)
Definition check_edge (st : CheckState) (edge : OCBEdge) : CheckState :=
mkCheck (passed st
         && bool_decide (JInt (source_block edge) ∈ block_id_set st)
         && bool_decide (JInt (destination_block edge) ∈ block_id_set st)
         && bool_decide (source_socket edge ∈ socket_id_set st)
         && bool_decide (destination_socket edge ∈ socket_id_set st))
        (block_id_set st) (socket_id_set st).

(** Checks 3 and 4, from empty sets: [Some true] when every check held. *)
Definition check_ids_and_edges (ipyg_data : Document) : option bool :=
st ← foldl (λ acc block, acc ≫= λ st, check_block st block)
           (Some (mkCheck true [] [])) (doc_blocks ipyg_data);
Some (passed (foldl check_edge st (doc_edges ipyg_data))).

End CoherenceTest.

(** The values found under ["id"] in the blocks of a document. *)
Definition doc_block_id_values (doc : Document) : list JValue :=
  omap (λ block, block !! "id") (doc_blocks doc).

(** No block has a list for id or an integer for sockets. *)
Definition ids_well_typed (doc : Document) : Prop :=
  ∀ block, block ∈ doc_blocks doc →
    (∀ l, block !! "id" ≠ Some (JSockets l))
    ∧ (∀ z, block !! "sockets" ≠ Some (JInt z)).

(** ** More sample inputs *)

(** A block of [graphics/block.py] without sockets, with integers for
    coordinates. *)
Definition empty_block : OCBBlock.State Z :=
  OCBBlock.mkState Z [] [] 180 240 30 10.

Definition sample_socket_events : list (OCBBlock.SocketEvent Z) :=
  [OCBBlock.AddSocket Z 6 "input"; OCBBlock.AddSocket Z 6 "output";
   OCBBlock.SetWidth Z 200; OCBBlock.AddSocket Z 6 "input"].

Definition sample_output_events : list OCBCodeBlockPanel.OutputEvent :=
  [OCBCodeBlockPanel.HandleStdout ("a" +:+ OCBCodeBlock.NEWLINE +:+ "b");
   OCBCodeBlockPanel.HandleImage "AAAA";
   OCBCodeBlockPanel.SetStdout EmptyString;
   OCBCodeBlockPanel.UpdateOutputPanel].

Definition sample_lines : list string :=
  ["a" +:+ OCBCodeBlock.NEWLINE;
   "b" +:+ OCBCodeBlock.NEWLINE +:+ "c" +:+ OCBCodeBlock.NEWLINE].

(** * Properties *)

(** ** The breadth-first traversal *)

Section BFS.

Variable links : list (Z * Z).

Lemma elem_of_successors x y : y ∈ successors links x ↔ (x, y) ∈ links.
Proof.
  unfold successors. rewrite list_elem_of_fmap. split.
  - intros [[a b] [-> [Hab ?]%list_elem_of_filter]]. simpl in *. by subst.
  - intros H. exists (x, y). split; [done|]. by apply list_elem_of_filter.
Qed.

Lemma expand_links (ls : list (Z * Z)) b visited :
  b ∉ visited →
  (length (successors ls b) + length (filter (λ l, l.1 ∉ visited ++ [b]) ls)
   = length (filter (λ l, l.1 ∉ visited) ls))%nat.
Proof.
  intros Hb. unfold successors. rewrite length_fmap.
  induction ls as [|[x y] ls IH]; [done|].
  rewrite !filter_cons. simpl.
  destruct (decide (x = b)) as [->|Hne].
  - rewrite decide_False; [|set_solver].
    rewrite decide_True; [|done]. simpl. lia.
  - destruct (decide (x ∈ visited)) as [Hin|Hnin].
    + rewrite decide_False; [|set_solver].
      rewrite decide_False; [|set_solver]. done.
    + rewrite decide_True; [|set_solver].
      rewrite decide_True; [|done]. simpl. lia.
Qed.

Lemma bfs_loop_keeps fuel to_visit visited x :
  x ∈ visited → x ∈ bfs_loop links fuel to_visit visited.
Proof.
  revert to_visit visited.
  induction fuel as [|fuel IH]; intros to_visit visited Hx; [done|].
  simpl. destruct to_visit as [|b rest]; [done|].
  case_bool_decide; apply IH; set_solver.
Qed.

Lemma bfs_loop_NoDup fuel to_visit visited :
  NoDup visited → NoDup (bfs_loop links fuel to_visit visited).
Proof.
  revert to_visit visited.
  induction fuel as [|fuel IH]; intros to_visit visited Hnd; [done|].
  simpl. destruct to_visit as [|b rest]; [done|].
  case_bool_decide; apply IH; [done|].
  apply NoDup_app. split_and!; [done| |apply NoDup_singleton].
  intros x Hx ->%list_elem_of_singleton. done.
Qed.

(** Soundness: the traversal only takes blocks that the queue or the
    visited list lead to. *)
Lemma bfs_loop_sound (P : Z → Prop) fuel to_visit visited :
  (∀ x y, P x → (x, y) ∈ links → P y) →
  (∀ x, x ∈ to_visit → P x) → (∀ x, x ∈ visited → P x) →
  ∀ x, x ∈ bfs_loop links fuel to_visit visited → P x.
Proof.
  intros Hstep. revert to_visit visited.
  induction fuel as [|fuel IH]; intros to_visit visited Hq Hv; [done|].
  simpl. destruct to_visit as [|b rest]; [done|].
  case_bool_decide.
  - apply IH; [|done]. intros x Hx. apply Hq. set_solver.
  - apply IH.
    + intros x [Hx|Hx]%elem_of_app; [apply Hq; set_solver|].
      apply elem_of_successors in Hx. apply (Hstep b); [|done].
      apply Hq. set_solver.
    + intros x [Hx|Hx]%elem_of_app; [by apply Hv|].
      apply Hq. set_solver.
Qed.

(** Completeness: with fuel for the whole potential, the queue is
    emptied and the result is closed under the links. *)
Lemma bfs_loop_complete fuel to_visit visited :
  (potential links to_visit visited ≤ fuel)%nat →
  (∀ x y, x ∈ visited → (x, y) ∈ links → y ∈ visited ∨ y ∈ to_visit) →
  (∀ x, x ∈ to_visit → x ∈ bfs_loop links fuel to_visit visited)
  ∧ (∀ x y, x ∈ bfs_loop links fuel to_visit visited → (x, y) ∈ links →
            y ∈ bfs_loop links fuel to_visit visited).
Proof.
  revert to_visit visited.
  induction fuel as [|fuel IH]; intros to_visit visited Hfuel Hinv.
  - unfold potential in Hfuel. destruct to_visit; simpl in *; [|lia].
    split; [set_solver|]. intros x y Hx Hxy.
    destruct (Hinv x y Hx Hxy) as [?|?]; set_solver.
  - simpl. destruct to_visit as [|b rest].
    { split; [set_solver|]. intros x y Hx Hxy.
      destruct (Hinv x y Hx Hxy) as [?|?]; set_solver. }
    unfold potential in Hfuel. simpl in Hfuel.
    case_bool_decide as Hb.
    + destruct (IH rest visited) as [IH1 IH2].
      { unfold potential. lia. }
      { intros x y Hx Hxy. destruct (Hinv x y Hx Hxy) as [?|Hy]; [by left|].
        apply elem_of_cons in Hy as [->|?]; [by left|by right]. }
      split; [|done].
      intros x [->|?]%elem_of_cons; [by apply bfs_loop_keeps|by apply IH1].
    + destruct (IH (rest ++ successors links b) (visited ++ [b])) as [IH1 IH2].
      { unfold potential. rewrite length_app.
        pose proof (expand_links links b visited Hb). lia. }
      { intros x y [Hx| ->%list_elem_of_singleton]%elem_of_app Hxy.
        - destruct (Hinv x y Hx Hxy) as [?|Hy]; [set_solver|].
          apply elem_of_cons in Hy as [->|?]; set_solver.
        - right. apply elem_of_app. right. by apply elem_of_successors. }
      split; [|done].
      intros x [->|?]%elem_of_cons.
      * apply bfs_loop_keeps. set_solver.
      * apply IH1. set_solver.
Qed.

End BFS.

(** ** The execution-flow graph of a scene *)

Lemma elem_of_exe_links {C} (sc : Scene C) a b : (a, b) ∈ exe_links sc ↔ exe_edge sc a b.
Proof.
  unfold exe_links, exe_edge. rewrite list_elem_of_omap. split.
  - intros (e & He & Hsome). case_match; [|done].
    simplify_eq. by exists e.
  - intros (e & He & <- & <- & Hexe). exists e. by rewrite Hexe.
Qed.

(** The traversal takes exactly the blocks reachable from its origin. *)
Lemma elem_of_custom_bfs {C} (sc : Scene C) start x :
  x ∈ custom_bfs sc start ↔ reachable sc start x.
Proof.
  unfold custom_bfs, reachable. split.
  - revert x. apply bfs_loop_sound.
    + intros a b Ha Hab. eapply rtc_r; [done|]. by apply elem_of_exe_links.
    + intros a ->%list_elem_of_singleton. done.
    + intros a Ha. by apply elem_of_nil in Ha.
  - destruct (bfs_loop_complete (exe_links sc) (S (length (exe_links sc)))
                [start] []) as [Hq Hclosed].
    { unfold potential. simpl. apply le_n_S, length_filter. }
    { intros a b Ha. by apply elem_of_nil in Ha. }
    revert x. apply rtc_ind_r.
    + apply Hq. set_solver.
    + intros b c _ Hbc IH. apply (Hclosed b c); [done|]. by apply elem_of_exe_links.
Qed.

(** The traversal takes no block twice. *)
Lemma custom_bfs_NoDup {C} (sc : Scene C) start : NoDup (custom_bfs sc start).
Proof. apply bfs_loop_NoDup, NoDup_nil_2. Qed.

Lemma edges_foldl_set_not_run {C} l (sc : Scene C) : edges (foldl set_not_run sc l) = edges sc.
Proof. revert sc. induction l as [|b l IH]; intros sc; [done|]. simpl. by rewrite IH. Qed.

Lemma lookup_foldl_set_not_run {C} l (sc : Scene C) b :
  blocks (foldl set_not_run sc l) !! b
  = if decide (b ∈ l) then with_has_been_run false <$> blocks sc !! b
    else blocks sc !! b.
Proof.
  revert sc. induction l as [|a l IH]; intros sc.
  - destruct (decide (b ∈ [])) as [Hin|_]; [by apply elem_of_nil in Hin|done].
  - cbn [foldl]. rewrite IH. unfold set_not_run at 1 2. cbn [blocks with_blocks].
    destruct (decide (a = b)) as [->|Hne].
    + rewrite lookup_alter_eq.
      destruct (decide (b ∈ b :: l)) as [_|Hnin]; [|set_solver].
      destruct (decide (b ∈ l)); [|done].
      by destruct (blocks sc !! b).
    + rewrite lookup_alter_ne by done.
      destruct (decide (b ∈ l)), (decide (b ∈ a :: l)); set_solver.
Qed.

(** ** Assigning [source] *)

(** The blocks after a [source] assignment that changes the source. *)
Lemma lookup_source_setter sc self blk c s b :
  blocks sc !! self = Some blk → payload blk = Code c → s ≠ _source c →
  blocks (BFSVariant.source_setter self s sc) !! b
  = if decide (b = self)
    then Some (mkBlock (title blk) (sockets blk) false
                 (Code (with_source s (with_source_editor s (with_source s c)))))
    else if decide (b ∈ custom_bfs sc self)
         then with_has_been_run false <$> blocks sc !! b
         else blocks sc !! b.
Proof.
  intros Hself Hpay Hne. unfold BFSVariant.source_setter.
  rewrite Hself, Hpay. rewrite bool_decide_true by done.
  cbn [blocks with_blocks].
  destruct (decide (b = self)) as [->|Hb].
  - rewrite lookup_alter_eq, lookup_foldl_set_not_run, Hself.
    destruct (decide (self ∈ custom_bfs sc self)); simpl;
      unfold on_code; simpl; rewrite Hpay; done.
  - rewrite lookup_alter_ne by done. apply lookup_foldl_set_not_run.
Qed.

(** C1. Assigning to a Code block [self] a source [s] different from its
    current one commits [s] and leaves [has_been_run = False] on [self]
    and on every block reachable from [self] through outgoing
    execution-flow edges; these are exactly the blocks the breadth-first
    traversal finds on the scene as it is before the assignment, each of
    them once; every block that is not reachable is left as it was. *)
Theorem source_setter_invalidates_downstream
    (sc : Scene CodeState) (self : Z) (blk : Block CodeState) (c : CodeState) (s : string) :
  blocks sc !! self = Some blk → payload blk = Code c → s ≠ _source c →
  let sc' := BFSVariant.source_setter self s sc in
  BFSVariant.source self sc' = Some s
  ∧ run_state sc' self = Some false
  ∧ (∀ b, b ∈ custom_bfs sc self ↔ reachable sc self b)
  ∧ NoDup (custom_bfs sc self)
  ∧ (∀ b, reachable sc self b → is_Some (blocks sc !! b) →
          run_state sc' b = Some false)
  ∧ (∀ b, ¬ reachable sc self b →
          blocks sc' !! b = blocks sc !! b ∧ run_state sc' b = run_state sc b).
Proof.
  intros Hself Hpay Hne sc'.
  pose proof (lookup_source_setter sc self blk c s) as Hlook.
  split_and!.
  - unfold BFSVariant.source. subst sc'.
    rewrite (Hlook self Hself Hpay Hne), decide_True by done. done.
  - unfold run_state. subst sc'.
    rewrite (Hlook self Hself Hpay Hne), decide_True by done. done.
  - intros b. apply elem_of_custom_bfs.
  - apply custom_bfs_NoDup.
  - intros b Hreach [blk' Hb]. unfold run_state. subst sc'.
    rewrite (Hlook b Hself Hpay Hne).
    destruct (decide (b = self)); [done|].
    rewrite decide_True by (by apply elem_of_custom_bfs).
    by rewrite Hb.
  - intros b Hreach. unfold run_state. subst sc'.
    rewrite (Hlook b Hself Hpay Hne).
    destruct (decide (b = self)) as [->|_].
    { exfalso. apply Hreach. apply rtc_refl. }
    rewrite decide_False; [done|]. by rewrite elem_of_custom_bfs.
Qed.

(** In the small scene, re-assigning block 1 marks 1 and its consumer 2
    as not run and leaves block 3 as run. *)
Lemma source_setter_invalidates_downstream_witness :
  let sc' := BFSVariant.source_setter 1 "a = 2" chain_scene in
  BFSVariant.source 1 sc' = Some "a = 2"
  ∧ run_state sc' 1 = Some false
  ∧ (∀ b, b ∈ custom_bfs chain_scene 1 ↔ reachable chain_scene 1 b)
  ∧ NoDup (custom_bfs chain_scene 1)
  ∧ (∀ b, reachable chain_scene 1 b → is_Some (blocks chain_scene !! b) →
          run_state sc' b = Some false)
  ∧ (∀ b, ¬ reachable chain_scene 1 b →
          blocks sc' !! b = blocks chain_scene !! b
          ∧ run_state sc' b = run_state chain_scene b).
Proof.
  apply (source_setter_invalidates_downstream chain_scene 1
           (run_code_block "a = 1" 10 11)
           (with_source_editor "a = 1" (with_source "a = 1" new_code_state))
           "a = 2").
  - reflexivity.
  - reflexivity.
  - discriminate.
Defined.

Example chain_scene_bfs : custom_bfs chain_scene 1 = [1; 2].
Proof. reflexivity. Qed.

Example chain_scene_after :
  let sc' := BFSVariant.source_setter 1 "a = 2" chain_scene in
  run_state sc' 1 = Some false ∧ run_state sc' 2 = Some false
  ∧ run_state sc' 3 = Some true.
Proof. vm_compute. done. Qed.

(** C10. Assigning to a Code block the source it already has changes
    nothing at all: the guard [value != self._source] fails, no traversal
    result is applied, and every block, [self] included, keeps its state,
    so every [has_been_run] is unchanged. *)
Theorem source_setter_same_value_noop
    (sc : Scene CodeState) (self : Z) (blk : Block CodeState) (c : CodeState) :
  blocks sc !! self = Some blk → payload blk = Code c →
  BFSVariant.source_setter self (_source c) sc = sc
  ∧ ∀ b, run_state (BFSVariant.source_setter self (_source c) sc) b
         = run_state sc b.
Proof.
  intros Hself Hpay.
  assert (BFSVariant.source_setter self (_source c) sc = sc) as Heq.
  { unfold BFSVariant.source_setter. rewrite Hself, Hpay.
    rewrite bool_decide_false; [done|]. intros Hne. by apply Hne. }
  split; [done|]. intros b. by rewrite Heq.
Qed.

Lemma source_setter_same_value_noop_witness :
  BFSVariant.source_setter 1 "a = 1" chain_scene = chain_scene
  ∧ ∀ b, run_state (BFSVariant.source_setter 1 "a = 1" chain_scene) b
         = run_state chain_scene b.
Proof.
  apply (source_setter_same_value_noop chain_scene 1
           (run_code_block "a = 1" 10 11)
           (with_source_editor "a = 1" (with_source "a = 1" new_code_state)));
    reflexivity.
Defined.

(** ** The two Code blocks compared *)

Lemma simple_setter_run_state sc self value b :
  run_state (SimpleVariant.source_setter self value sc) b = run_state sc b.
Proof.
  unfold run_state, SimpleVariant.source_setter. cbn [blocks with_blocks].
  destruct (decide (b = self)) as [->|Hne].
  - rewrite lookup_alter_eq. destruct (blocks sc !! self) as [blk|]; [|done].
    simpl. unfold on_code. by destruct (payload blk).
  - by rewrite lookup_alter_ne.
Qed.

(** C9. The two Code blocks differ on [source] assignment.  The simpler
    one never changes the run state of any block; the one with the
    breadth-first invalidation does: on the small scene both commit the
    new source of block 1, but only the latter marks block 1 and its
    consumer, block 2, as not run. *)
Theorem source_setters_not_equivalent :
  (∀ sc self value b,
     run_state (SimpleVariant.source_setter self value sc) b = run_state sc b)
  ∧ (let bfs' := BFSVariant.source_setter 1 "a = 2" chain_scene in
     let simple' := SimpleVariant.source_setter 1 "a = 2" (as_simple chain_scene) in
     BFSVariant.source 1 bfs' = Some "a = 2"
     ∧ SimpleVariant.source 1 simple' = Some "a = 2"
     ∧ run_state chain_scene 1 = Some true
     ∧ run_state chain_scene 2 = Some true
     ∧ run_state bfs' 1 = Some false ∧ run_state bfs' 2 = Some false
     ∧ run_state simple' 1 = Some true ∧ run_state simple' 2 = Some true)
  ∧ ¬ (∀ sc self value b,
         run_state (BFSVariant.source_setter self value sc) b
         = run_state (SimpleVariant.source_setter self value (as_simple sc)) b).
Proof.
  split_and!.
  - apply simple_setter_run_state.
  - vm_compute. done.
  - intros Heq. specialize (Heq chain_scene 1 "a = 2" 2).
    vm_compute in Heq. discriminate.
Qed.

(** ** Python string primitives *)

Section PyStrFacts.

Import PyStr.

Lemma str_app_cons a s t : String a s +:+ t = String a (s +:+ t).
Proof. reflexivity. Qed.

Lemma str_app_empty_r s : s +:+ EmptyString = s.
Proof. induction s as [|a s IH]; [done|]. by rewrite str_app_cons, IH. Qed.

Lemma str_app_assoc s t u : (s +:+ t) +:+ u = s +:+ (t +:+ u).
Proof. induction s as [|a s IH]; [done|]. by rewrite !str_app_cons, IH. Qed.

Lemma chars_app s t : chars (s +:+ t) = chars s ++ chars t.
Proof. induction s as [|a s IH]; [done|]. rewrite str_app_cons. simpl. by rewrite IH. Qed.

Lemma startswith_spec p s : startswith p s = true ↔ ∃ r, s = p +:+ r.
Proof.
  revert s. induction p as [|a p IH]; intros s; simpl.
  - split; [|done]. intros _. by exists s.
  - destruct s as [|b s].
    + split; [done|]. intros [r Hr]. by rewrite str_app_cons in Hr.
    + case_decide as Hab.
      * subst b. rewrite IH. split; intros [r Hr]; exists r.
        -- by rewrite str_app_cons, Hr.
        -- rewrite str_app_cons in Hr. by simplify_eq.
      * split; [done|]. intros [r Hr]. rewrite str_app_cons in Hr. by simplify_eq.
Qed.

Lemma slice_from_app p r : slice_from (String.length p) (p +:+ r) = r.
Proof. induction p as [|a p IH]; [done|]. by rewrite str_app_cons. Qed.

Lemma contains_spec c s : contains c s = true ↔ c ∈ chars s.
Proof.
  induction s as [|a s IH]; simpl.
  - split; [done|]. by intros ?%elem_of_nil.
  - case_decide as Hac.
    + subst. split; [|done]. intros _. apply elem_of_cons. by left.
    + rewrite IH. rewrite elem_of_cons. naive_solver.
Qed.

Lemma contains_false c s : contains c s = false ↔ c ∉ chars s.
Proof.
  rewrite <- contains_spec. destruct (contains c s); naive_solver.
Qed.

(** Replacing a single character by nothing filters it out. *)
Lemma chars_replace_char c s :
  chars (replace (String c EmptyString) EmptyString s)
  = filter (λ a, a ≠ c) (chars s).
Proof.
  unfold replace. induction s as [|a s IH]; [done|].
  cbn [replace_from startswith String.length Nat.pred chars].
  rewrite filter_cons. destruct (decide (c = a)) as [->|Hne].
  - rewrite decide_False by (intros H; by apply H).
    change (EmptyString +:+ ?x) with x. apply IH.
  - rewrite decide_True by done. cbn [chars]. by rewrite IH.
Qed.

Lemma split_nonempty sep s : split sep s ≠ [].
Proof.
  destruct s as [|a s]; simpl; [done|].
  case_decide; [done|]. by destruct (split sep s).
Qed.

(** ["\n".join(s.split("\n")) == s] *)
Lemma join_cons_cons sep l l' ls :
  join sep (l :: l' :: ls) = l +:+ sep +:+ join sep (l' :: ls).
Proof. reflexivity. Qed.

Lemma join_split sep s : join (String sep EmptyString) (split sep s) = s.
Proof.
  induction s as [|a s IH]; [done|]. cbn [split].
  pose proof (split_nonempty sep s) as Hne.
  destruct (split sep s) as [|l ls]; [done|].
  case_decide as Ha.
  - subst a. rewrite join_cons_cons, IH. done.
  - destruct ls as [|l' ls].
    + cbn [join] in *. by rewrite IH.
    + rewrite join_cons_cons in *. rewrite str_app_cons. by rewrite IH.
Qed.

(** No piece of a split holds the separator. *)
Lemma split_no_sep sep s l : l ∈ split sep s → contains sep l = false.
Proof.
  revert l. induction s as [|a s IH]; intros l; simpl.
  - by intros ->%list_elem_of_singleton.
  - pose proof (split_nonempty sep s) as Hne.
    case_decide as Ha.
    + intros [->|Hl]%elem_of_cons; [done|]. by apply IH.
    + destruct (split sep s) as [|l0 ls]; [done|].
      intros [->|Hl]%elem_of_cons.
      * simpl. rewrite decide_False by done. apply IH. set_solver.
      * apply IH. set_solver.
Qed.

(** A string with a separator splits into at least two pieces. *)
Lemma split_contains sep s :
  contains sep s = true → ∃ l ls x, split sep s = l :: ls ++ [x].
Proof.
  induction s as [|a s IH]; simpl; [done|].
  pose proof (split_nonempty sep s) as Hne.
  case_decide as Ha.
  - intros _. destruct (split sep s) as [|l0 ls0] eqn:Hs; [done|].
    destruct (exists_last (l := l0 :: ls0)) as (ini & x & Hini); [done|].
    exists EmptyString, ini, x. by rewrite Hini.
  - intros (l & ls & x & Hs)%IH. rewrite Hs. by exists (String a l), ls, x.
Qed.

Lemma join_snoc sep l ls x :
  join sep ((l :: ls) ++ [x]) = join sep (l :: ls) +:+ sep +:+ x.
Proof.
  revert l. induction ls as [|l' ls IH]; intros l; [done|].
  change (join sep ((l :: l' :: ls) ++ [x]))
    with (l +:+ sep +:+ join sep ((l' :: ls) ++ [x])).
  rewrite IH.
  change (join sep (l :: l' :: ls)) with (l +:+ sep +:+ join sep (l' :: ls)).
  by rewrite !str_app_assoc.
Qed.

Lemma last_item_snoc l x : last_item (l ++ [x]) = x.
Proof. unfold last_item. apply last_last. Qed.

Lemma all_but_last_snoc l x : all_but_last (l ++ [x]) = l.
Proof. unfold all_but_last. apply removelast_last. Qed.

(** A fragment with a newline is its complete lines, each closed by a
    newline, followed by its last, unterminated, piece. *)
Lemma split_lines value :
  contains LF value = true →
  (join (String LF EmptyString) (all_but_last (split LF value))
     +:+ String LF EmptyString) +:+ last_item (split LF value) = value.
Proof.
  intros (l & ls & x & Hs)%split_contains.
  pose proof (join_split LF value) as Hjoin. rewrite Hs in Hjoin |- *.
  change (l :: ls ++ [x]) with ((l :: ls) ++ [x]) in *.
  rewrite all_but_last_snoc, last_item_snoc.
  rewrite join_snoc in Hjoin. by rewrite str_app_assoc.
Qed.

Example split_lines_of_fragment :
  split LF ("abc" +:+ String LF "def") = ["abc"; "def"]
  ∧ split LF EmptyString = [EmptyString]
  ∧ split LF (String LF EmptyString) = [EmptyString; EmptyString].
Proof. by split_and!. Qed.

Example replace_occurrences :
  replace "ab" "X" "aabcabab" = "aXcXX" ∧ replace "aa" "b" "aaa" = "ba"
  ∧ replace (String BS EmptyString) EmptyString (String BS "a" +:+ String BS "b")
    = "ab".
Proof. by split_and!. Qed.

End PyStrFacts.

(** ** The output protocol *)

Section OutputProtocol.

Import PyStr OCBCodeBlock.

Variable conv_convert : string → string.

Lemma stdout_setter_stdout value self :
  _stdout (stdout_setter conv_convert value self) = value.
Proof.
  unfold stdout_setter. destruct self as [s o c e [p|] cl ss sp]; [|done].
  destruct cl; simpl; by case_bool_decide.
Qed.

Lemma stdout_setter_cached value self :
  _cached_stdout (stdout_setter conv_convert value self) = _cached_stdout self.
Proof.
  unfold stdout_setter. destruct self as [s o c e [p|] cl ss sp]; [|done].
  destruct cl; simpl; by case_bool_decide.
Qed.

Lemma stdout_setter_panel value self :
  is_Some (output_panel self) →
  output_panel (stdout_setter conv_convert value self)
  = Some (display_text conv_convert value).
Proof.
  intros [old Hold]. unfold stdout_setter.
  destruct self as [s o c e p cl ss sp]. simpl in Hold. subst p.
  destruct cl; simpl; by case_bool_decide.
Qed.

(** C3. Assigning [v] to [stdout] stores [v] and hands to the output
    panel: for [v] made of the marker "<img>" and a remainder, the HTML
    image tag whose source is the [data:image/png;base64] reference to
    that remainder (so "<img>AAAA" is shown as an image, not as its own
    text); for [v] starting with the marker "<div>", [v] itself; for any
    other [v], the markup the ANSI converter makes of [v]. *)
Theorem stdout_setter_classifies (self : CodeState) (v : string) :
  is_Some (output_panel self) →
  let self' := stdout_setter conv_convert v self in
  _stdout self' = v
  ∧ (∀ rest, v = "<img>" +:+ rest →
       output_panel self'
       = Some ("<img src=" +:+ DQUOTE +:+ "data:image/png;base64," +:+ rest
                 +:+ DQUOTE +:+ ">")
       ∧ output_panel self' ≠ Some v)
  ∧ (∀ rest, v = "<div>" +:+ rest → output_panel self' = Some v)
  ∧ ((¬ ∃ rest, v = "<img>" +:+ rest) → (¬ ∃ rest, v = "<div>" +:+ rest) →
       output_panel self'
       = Some (replace "background-color: #000000"
                 "background-color: transparent"
                 (conv_convert (remove_controls v))))
  ∧ (v = "<img>AAAA" →
       output_panel self'
       = Some ("<img src=" +:+ DQUOTE +:+ "data:image/png;base64,AAAA"
                 +:+ DQUOTE +:+ ">")).
Proof.
  intros Hpanel self'. subst self'.
  rewrite stdout_setter_stdout, (stdout_setter_panel v self Hpanel).
  unfold display_text. split_and!.
  - done.
  - intros rest ->. split; [done|]. intros [=].
  - intros rest ->. done.
  - intros Himg Hdiv.
    destruct (startswith "<img>" v) eqn:E1.
    { destruct Himg. by apply startswith_spec. }
    destruct (startswith "<div>" v) eqn:E2.
    { destruct Hdiv. by apply startswith_spec. }
    done.
  - intros ->. done.
Qed.

Lemma handle_stdout_cached_stdout value self :
  _stdout (handle_stdout conv_convert value self) = _cached_stdout self +:+ value.
Proof.
  unfold handle_stdout. destruct (contains LF value) eqn:Hnl.
  - rewrite stdout_setter_stdout. destruct self as [s o c e p cl ss sp].
    cbn [_cached_stdout with_cached_stdout].
    rewrite str_app_assoc. f_equal. by apply split_lines.
  - by rewrite stdout_setter_stdout.
Qed.

(** C4 (as the code has it). A fragment [v] is cut after its last
    newline: the part up to there, its complete lines, is appended to
    the cached buffer; the rest, its unterminated last piece, is not
    buffered, it is only shown after the buffer, so [stdout] is the
    former buffer followed by [v].  The next fragment is shown in its
    place: after "abc\ndef" and then "gh", the buffer is "abc\n" and
    [stdout] is "abc\ngh". *)
Theorem handle_stdout_buffers_complete_lines (self : CodeState) (v : string) :
  (∃ complete_lines partial_line,
      v = complete_lines +:+ partial_line
      ∧ contains LF partial_line = false
      ∧ (complete_lines = EmptyString
         ∨ ∃ body, complete_lines = body +:+ NEWLINE)
      ∧ _cached_stdout (handle_stdout conv_convert v self)
        = _cached_stdout self +:+ complete_lines
      ∧ _stdout (handle_stdout conv_convert v self)
        = (_cached_stdout self +:+ complete_lines) +:+ partial_line)
  ∧ (let after := handle_stdout conv_convert "gh"
                    (handle_stdout conv_convert
                       ("abc" +:+ NEWLINE +:+ "def") new_code_state) in
     _cached_stdout after = "abc" +:+ NEWLINE
     ∧ _stdout after = "abc" +:+ NEWLINE +:+ "gh").
Proof.
  split.
  - destruct (contains LF v) eqn:Hnl.
    + exists (join NEWLINE (all_but_last (split LF v)) +:+ NEWLINE),
             (last_item (split LF v)).
      split_and!.
      * symmetry. by apply split_lines.
      * apply (split_no_sep LF v).
        destruct (split_contains LF v Hnl) as (l & ls & x & ->).
        change (l :: ls ++ [x]) with ((l :: ls) ++ [x]).
        rewrite last_item_snoc. set_solver.
      * right. by eexists.
      * unfold handle_stdout. rewrite Hnl. rewrite stdout_setter_cached.
        by destruct self.
      * rewrite handle_stdout_cached_stdout, str_app_assoc. f_equal.
        symmetry. by apply split_lines.
    + exists EmptyString, v. split_and!; [done|done|by left| |].
      * unfold handle_stdout. rewrite Hnl.
        by rewrite stdout_setter_cached, str_app_empty_r.
      * by rewrite handle_stdout_cached_stdout, str_app_empty_r.
  - split; reflexivity.
Qed.

End OutputProtocol.

Lemma stdout_setter_classifies_witness :
  is_Some (output_panel new_code_state)
  ∧ output_panel (OCBCodeBlock.stdout_setter (λ s, s) "<img>AAAA" new_code_state)
    = Some ("<img src=" +:+ OCBCodeBlock.DQUOTE +:+ "data:image/png;base64,AAAA"
              +:+ OCBCodeBlock.DQUOTE +:+ ">").
Proof.
  split.
  - exists EmptyString. reflexivity.
  - destruct (stdout_setter_classifies (λ s, s) new_code_state "<img>AAAA"
                (ex_intro _ EmptyString eq_refl)) as (_ & _ & _ & _ & Himg).
    exact (Himg eq_refl).
Defined.

(** C4 (as stated) fails: after the fragments "abc\ndef" and "gh" the
    block's [stdout] is "abc\ngh", not "abc\ndefgh". *)
Lemma handle_stdout_replaces_partial_line :
  let after := OCBCodeBlock.handle_stdout (λ s, s) "gh"
                 (OCBCodeBlock.handle_stdout (λ s, s)
                    ("abc" +:+ OCBCodeBlock.NEWLINE +:+ "def") new_code_state) in
  _stdout after = "abc" +:+ OCBCodeBlock.NEWLINE +:+ "gh"
  ∧ _stdout after ≠ "abc" +:+ OCBCodeBlock.NEWLINE +:+ "defgh".
Proof. split; [reflexivity|]. intros [=]. Qed.

(** C5 (as stated) fails: a carriage return and a backspace delivered in
    fragments are found again in [stdout] and in the cached buffer. *)
Lemma handle_stdout_keeps_control_characters :
  let after := OCBCodeBlock.handle_stdout (λ s, s)
                 (String PyStr.BS "x" +:+ OCBCodeBlock.NEWLINE +:+ String PyStr.CR "y")
                 new_code_state in
  PyStr.CR ∈ PyStr.chars (_stdout after)
  ∧ PyStr.BS ∈ PyStr.chars (_stdout after)
  ∧ PyStr.BS ∈ PyStr.chars (_cached_stdout after).
Proof.
  split_and!.
  - change (PyStr.CR ∈ [PyStr.BS; "x"%char; PyStr.LF; PyStr.CR; "y"%char]).
    set_solver.
  - change (PyStr.BS ∈ [PyStr.BS; "x"%char; PyStr.LF; PyStr.CR; "y"%char]).
    set_solver.
  - change (PyStr.BS ∈ [PyStr.BS; "x"%char; PyStr.LF]). set_solver.
Qed.

(** C5 (as the code has it). Backspaces and carriage returns are removed
    when a plain-text value is rendered, not when it is buffered:
    [handle_stdout] stores the fragment after the cached buffer as it
    came, and [str_to_html] hands to the ANSI converter the text without
    its backspaces and carriage returns, every other character kept in
    order. *)
Theorem controls_removed_when_rendered
    (conv_convert : string → string) (self : CodeState) (v : string) :
  _stdout (OCBCodeBlock.handle_stdout conv_convert v self)
  = _cached_stdout self +:+ v
  ∧ OCBCodeBlock.str_to_html conv_convert v
    = PyStr.replace "background-color: #000000" "background-color: transparent"
        (conv_convert (OCBCodeBlock.remove_controls v))
  ∧ PyStr.chars (OCBCodeBlock.remove_controls v)
    = filter (λ a, a ≠ PyStr.CR ∧ a ≠ PyStr.BS) (PyStr.chars v)
  ∧ (PyStr.BS ∉ PyStr.chars (OCBCodeBlock.remove_controls v))
  ∧ (PyStr.CR ∉ PyStr.chars (OCBCodeBlock.remove_controls v)).
Proof.
  assert (PyStr.chars (OCBCodeBlock.remove_controls v)
          = filter (λ a, a ≠ PyStr.CR ∧ a ≠ PyStr.BS) (PyStr.chars v)) as Hchars.
  { unfold OCBCodeBlock.remove_controls.
    rewrite !chars_replace_char. apply list_filter_filter. }
  split_and!.
  - apply handle_stdout_cached_stdout.
  - reflexivity.
  - done.
  - rewrite Hchars. intros [[_ Hbs] _]%list_elem_of_filter. done.
  - rewrite Hchars. intros [[Hcr _] _]%list_elem_of_filter. done.
Qed.

(** ** Serialization *)

Section SerializationFacts.

Variable conv_convert : string → string.
Variable BLOCK_TYPE_TO_NAME : BlockType → string.
Variable OCBBlock_DEFAULT_DATA : gmap string JValue.

Lemma stdout_setter_source value self :
  _source (OCBCodeBlock.stdout_setter conv_convert value self) = _source self.
Proof.
  unfold OCBCodeBlock.stdout_setter.
  destruct self as [s o c e [p|] cl ss sp]; [|done].
  destruct cl; simpl; by case_bool_decide.
Qed.

Lemma fresh_block_key (sc : Scene CodeState) :
  blocks sc !! fresh (scene_ids sc) = None.
Proof.
  apply not_elem_of_dom. pose proof (is_fresh (scene_ids sc)) as Hfresh.
  unfold scene_ids in Hfresh at 2. set_solver.
Qed.

(** On a scene without edges the traversal finds the origin alone. *)
Lemma custom_bfs_no_edges (sc : Scene CodeState) k :
  edges sc = [] → custom_bfs sc k = [k].
Proof. intros He. unfold custom_bfs, exe_links. rewrite He. reflexivity. Qed.

(** Assigning the source of a block just constructed. *)
Lemma source_setter_new_block (sc : Scene CodeState) k i o src :
  edges sc = [] →
  BFSVariant.source_setter k src
    (with_blocks (<[k := new_block code i o]> (blocks sc)) sc)
  = with_blocks
      (<[k := mkBlock EmptyString
                [mkSocket i input exe; mkSocket o output exe] false
                (Code (with_source src (with_source_editor src
                         (with_source src new_code_state)))) ]> (blocks sc))
      sc.
Proof.
  intros He. unfold BFSVariant.source_setter.
  cbn [blocks with_blocks]. rewrite lookup_insert_eq.
  cbn [payload new_block]. change (_source new_code_state) with EmptyString.
  case_bool_decide as Hsrc.
  - rewrite custom_bfs_no_edges by done.
    cbn [foldl set_not_run blocks with_blocks edges].
    rewrite !alter_insert_eq. done.
  - assert (src = EmptyString) as ->.
    { destruct (decide (src = EmptyString)); [done|]. by destruct Hsrc. }
    done.
Qed.

Lemma lookup_OCBBlock_serialize self blk key :
  OCBBlock_serialize BLOCK_TYPE_TO_NAME self blk !! key
  = if decide (key = "id") then Some (JInt self)
    else if decide (key = "title") then Some (JStr (title blk))
    else if decide (key = "block_type")
         then Some (JStr (BLOCK_TYPE_TO_NAME (block_type blk)))
    else if decide (key = "sockets") then Some (JSockets (sockets blk))
    else None.
Proof.
  unfold OCBBlock_serialize.
  repeat (case_decide; [subst; by simplify_map_eq|]).
  by simplify_map_eq.
Qed.

Lemma block_type_of_code_name :
  block_type_of_name BLOCK_TYPE_TO_NAME (BLOCK_TYPE_TO_NAME code) = Some code.
Proof. unfold block_type_of_name. by rewrite decide_True. Qed.

Lemma block_type_of_markdown_name :
  BLOCK_TYPE_TO_NAME code ≠ BLOCK_TYPE_TO_NAME markdown →
  block_type_of_name BLOCK_TYPE_TO_NAME (BLOCK_TYPE_TO_NAME markdown)
  = Some markdown.
Proof.
  intros Hne. unfold block_type_of_name.
  rewrite decide_False by done. by rewrite decide_True.
Qed.

Lemma OCBBlock_deserialize_restore (sc : Scene CodeState) k' blk
      (d : gmap string JValue) h i t socks :
  blocks sc !! k' = Some blk →
  d !! "id" = Some (JInt i) → d !! "title" = Some (JStr t) →
  d !! "sockets" = Some (JSockets socks) →
  OCBBlock_deserialize k' d h true sc
  = Some (with_blocks
            (<[i := with_sockets socks (with_title t blk)]>
               (delete k' (blocks sc))) sc,
          record_ids h i socks).
Proof.
  intros Hblk Hid Htitle Hsocks. unfold OCBBlock_deserialize.
  rewrite Hblk, Hid, Htitle, Hsocks. reflexivity.
Qed.

Lemma lookup_code_dict self blk c :
  payload blk = Code c →
  ∃ d, OCBCodeBlock_serialize BLOCK_TYPE_TO_NAME self blk = Some d
    ∧ d !! "id" = Some (JInt self)
    ∧ d !! "title" = Some (JStr (title blk))
    ∧ d !! "block_type" = Some (JStr (BLOCK_TYPE_TO_NAME code))
    ∧ d !! "sockets" = Some (JSockets (sockets blk))
    ∧ d !! "source" = Some (JStr (_source c))
    ∧ d !! "stdout" = Some (JStr (_stdout c)).
Proof.
  intros Hpay. unfold OCBCodeBlock_serialize, OCBBlock_serialize, block_type.
  rewrite Hpay. eexists. split; [reflexivity|].
  split_and!; by simplify_map_eq.
Qed.

Lemma lookup_markdown_dict self blk text :
  payload blk = Markdown text →
  ∃ d, OCBMarkdownBlock_serialize BLOCK_TYPE_TO_NAME self blk = Some d
    ∧ d !! "id" = Some (JInt self)
    ∧ d !! "title" = Some (JStr (title blk))
    ∧ d !! "block_type" = Some (JStr (BLOCK_TYPE_TO_NAME markdown))
    ∧ d !! "sockets" = Some (JSockets (sockets blk))
    ∧ d !! "text" = Some (JStr text).
Proof.
  intros Hpay. unfold OCBMarkdownBlock_serialize, OCBBlock_serialize, block_type.
  rewrite Hpay. eexists. split; [reflexivity|].
  split_and!; by simplify_map_eq.
Qed.

Lemma setattr_source self v (sc : Scene CodeState) :
  setattr conv_convert self "source" (JStr v) sc
  = Some (BFSVariant.source_setter self v sc).
Proof. reflexivity. Qed.

Lemma setattr_stdout self v (sc : Scene CodeState) :
  setattr conv_convert self "stdout" (JStr v) sc
  = Some (with_blocks
            (alter (on_code (OCBCodeBlock.stdout_setter conv_convert v))
                   self (blocks sc)) sc).
Proof. reflexivity. Qed.

(** Loading one serialized block onto a scene without edges inserts
    the restored block under its id and records its ids. *)
Lemma deserialize_serialized_block (sc : Scene CodeState) hashmap k b d :
  BLOCK_TYPE_TO_NAME code ≠ BLOCK_TYPE_TO_NAME markdown →
  edges sc = [] →
  serialize_block BLOCK_TYPE_TO_NAME k b = Some d →
  deserialize_block conv_convert BLOCK_TYPE_TO_NAME OCBBlock_DEFAULT_DATA true d (sc, hashmap)
  = Some (with_blocks (<[k := restored conv_convert b]> (blocks sc)) sc,
          record_ids hashmap k (sockets b)).
Proof.
  intros Hnames He Hser.
  pose proof (fresh_block_key sc) as Hfresh.
  unfold serialize_block in Hser. unfold deserialize_block.
  destruct (payload b) as [c|text] eqn:Hpay.
  - destruct (lookup_code_dict k b c Hpay)
      as (d' & Hd & Hid & Htitle & Htype & Hsocks & Hsrc & Hout).
    unfold block_type in Hser. rewrite Hpay in Hser.
    rewrite Hser in Hd. injection Hd as <-.
    rewrite Htype. cbn [mbind option_bind as_str].
    rewrite block_type_of_code_name.
    unfold create_block. cbn [fst snd].
    unfold OCBCodeBlock_deserialize, complete_with_default.
    cbn [foldl].
    rewrite (lookup_union_Some_l _ _ _ _ Hsrc).
    rewrite (lookup_union_Some_l _ _ _ _ Hout).
    cbn [mbind option_bind].
    rewrite setattr_source. cbn [mbind option_bind].
    rewrite setattr_stdout. cbn [mbind option_bind].
    rewrite source_setter_new_block by done.
    cbn [blocks with_blocks]. rewrite alter_insert_eq.
    erewrite OCBBlock_deserialize_restore;
      [|apply lookup_insert_eq
       |by apply lookup_union_Some_l
       |by apply lookup_union_Some_l
       |by apply lookup_union_Some_l].
    cbn [blocks with_blocks]. rewrite delete_insert_id by done.
    unfold restored. rewrite Hpay. reflexivity.
  - destruct (lookup_markdown_dict k b text Hpay)
      as (d' & Hd & Hid & Htitle & Htype & Hsocks & Htext).
    unfold block_type in Hser. rewrite Hpay in Hser.
    rewrite Hser in Hd. injection Hd as <-.
    rewrite Htype. cbn [mbind option_bind as_str].
    rewrite block_type_of_markdown_name by done.
    unfold create_block. cbn [fst snd mbind option_bind].
    unfold OCBMarkdownBlock_deserialize, complete_with_default.
    rewrite (lookup_union_Some_l _ _ _ _ Htext).
    cbn [as_str mbind option_bind blocks with_blocks].
    rewrite alter_insert_eq.
    erewrite OCBBlock_deserialize_restore;
      [|apply lookup_insert_eq
       |by apply lookup_union_Some_l
       |by apply lookup_union_Some_l
       |by apply lookup_union_Some_l].
    cbn [blocks with_blocks]. rewrite delete_insert_id by done.
    unfold restored. rewrite Hpay. reflexivity.
Qed.

Lemma serialize_block_total k (b : Block CodeState) :
  is_Some (serialize_block BLOCK_TYPE_TO_NAME k b).
Proof.
  unfold serialize_block, block_type, OCBCodeBlock_serialize,
    OCBMarkdownBlock_serialize.
  destruct (payload b); by eexists.
Qed.

Lemma record_ids_keeps h k socks i :
  h !! i = Some i → record_ids h k socks !! i = Some i.
Proof.
  intros Hi. unfold record_ids. induction socks as [|s socks IH]; simpl.
  - destruct (decide (k = i)) as [->|]; by simplify_map_eq.
  - destruct (decide (socket_id s = i)) as [->|]; by simplify_map_eq.
Qed.

Lemma record_ids_block h k socks : record_ids h k socks !! k = Some k.
Proof.
  unfold record_ids. induction socks as [|s socks IH]; simpl.
  - by simplify_map_eq.
  - destruct (decide (socket_id s = k)) as [->|]; by simplify_map_eq.
Qed.

Lemma record_ids_socket h k socks s :
  s ∈ socks → record_ids h k socks !! socket_id s = Some (socket_id s).
Proof.
  unfold record_ids. induction socks as [|s' socks IH]; simpl.
  - by intros ?%elem_of_nil.
  - intros [->|Hs]%elem_of_cons; [by simplify_map_eq|].
    destruct (decide (socket_id s' = socket_id s)) as [Heq|Hne].
    + rewrite Heq. apply lookup_insert_eq.
    + rewrite lookup_insert_ne by done. by apply IH.
Qed.

(** Loading the serialized blocks one after the other. *)
Lemma deserialize_blocks_fold (l : list (Z * Block CodeState)) ds :
  BLOCK_TYPE_TO_NAME code ≠ BLOCK_TYPE_TO_NAME markdown →
  Forall2 (λ kb d, serialize_block BLOCK_TYPE_TO_NAME kb.1 kb.2 = Some d) l ds →
  ∀ (sc : Scene CodeState) h, edges sc = [] →
  ∃ h',
    foldl (λ acc d,
             acc ≫= deserialize_block conv_convert BLOCK_TYPE_TO_NAME
                      OCBBlock_DEFAULT_DATA true d)
          (Some (sc, h)) ds
    = Some (with_blocks
              (foldl (λ m kb, <[kb.1 := restored conv_convert kb.2]> m)
                     (blocks sc) l) sc, h')
    ∧ (∀ i, h !! i = Some i → h' !! i = Some i)
    ∧ (∀ kb, kb ∈ l →
         h' !! kb.1 = Some kb.1
         ∧ ∀ s, s ∈ sockets kb.2 → h' !! socket_id s = Some (socket_id s)).
Proof.
  intros Hnames Hall.
  induction Hall as [|[k b] d l ds Hser _ IH]; intros sc h He.
  - exists h. split_and!; [by destruct sc|done|].
    by intros kb ?%elem_of_nil.
  - cbn [foldl mbind option_bind].
    rewrite (deserialize_serialized_block sc h k b d Hnames He Hser).
    destruct (IH (with_blocks (<[k := restored conv_convert b]> (blocks sc)) sc)
                 (record_ids h k (sockets b)) He)
      as (h' & Hfold & Hkeep & Hnew).
    exists h'. split_and!.
    + rewrite Hfold. reflexivity.
    + intros i Hi. by apply Hkeep, record_ids_keeps.
    + intros kb [->|Hkb]%elem_of_cons; [|by apply Hnew].
      split.
      * apply Hkeep, record_ids_block.
      * intros s Hs. by apply Hkeep, record_ids_socket.
Qed.

Lemma lookup_foldl_restored (l : list (Z * Block CodeState)) :
  ∀ (m0 : gmap Z (Block CodeState)) k, NoDup l.*1 →
    foldl (λ m kb, <[kb.1 := restored conv_convert kb.2]> m) m0 l !! k
    = match (list_to_map l : gmap Z (Block CodeState)) !! k with
      | Some b => Some (restored conv_convert b)
      | None => m0 !! k
      end.
Proof.
  induction l as [|[k1 b1] l IH]; intros m0 k Hnd; [done|].
  apply NoDup_cons in Hnd as [Hk1 Hnd].
  cbn [foldl fst snd]. rewrite IH by done.
  change (list_to_map ((k1, b1) :: l)) with (<[k1 := b1]> (list_to_map l : gmap Z (Block CodeState))).
  destruct (decide (k = k1)) as [->|Hne].
  - rewrite (not_elem_of_list_to_map_1 _ _ Hk1). by rewrite !lookup_insert_eq.
  - by rewrite !lookup_insert_ne by done.
Qed.

(** Loading the edges of a document whose ends were all restored. *)
Lemma deserialize_edges_fold (h : gmap Z Z) es :
  ∀ sc : Scene CodeState,
    (∀ e, e ∈ es →
       h !! source_block e = Some (source_block e)
       ∧ h !! source_socket e = Some (source_socket e)
       ∧ h !! destination_block e = Some (destination_block e)
       ∧ h !! destination_socket e = Some (destination_socket e)) →
    foldl (λ acc e, acc ≫= deserialize_edge h e) (Some sc) es
    = Some (mkScene (blocks sc) (edges sc ++ es)).
Proof.
  induction es as [|e es IH]; intros sc Hes.
  - rewrite app_nil_r. by destruct sc.
  - cbn [foldl mbind option_bind].
    destruct (Hes e) as (H1 & H2 & H3 & H4); [set_solver|].
    unfold deserialize_edge at 2. rewrite H1, H2, H3, H4.
    cbn [mbind option_bind]. rewrite IH by (intros; apply Hes; set_solver).
    cbn [blocks edges]. rewrite <- app_assoc. by destruct e.
Qed.

Lemma elem_of_socket_ids (sc : Scene CodeState) i :
  i ∈ socket_ids sc ↔
  ∃ k b s, blocks sc !! k = Some b ∧ s ∈ sockets b ∧ socket_id s = i.
Proof.
  unfold socket_ids. rewrite list_elem_of_bind. split.
  - intros ([k b] & (s & -> & Hs)%list_elem_of_fmap & Hkb%elem_of_map_to_list).
    by exists k, b, s.
  - intros (k & b & s & Hkb & Hs & <-). exists (k, b). split.
    + apply list_elem_of_fmap. by exists s.
    + by apply elem_of_map_to_list.
Qed.

Lemma block_equiv_restored (b : Block CodeState) :
  block_equiv b (restored conv_convert b).
Proof.
  unfold block_equiv, restored. destruct (payload b) as [c|text] eqn:Hpay.
  - split_and!; [done|done|]. cbn [payload]. split.
    + by rewrite stdout_setter_source.
    + by rewrite stdout_setter_stdout.
  - by split_and!.
Qed.

(** C2 (amended). A graph document (blocks keyed by id, every edge
    naming blocks and sockets of the document) that is serialized and
    then deserialized with [restore_id] true onto an empty scene comes
    back with the same block ids, for every block the same title, the
    same sockets with the same ids, the same source and output for a
    Code block and the same text for a Markdown block, and the same
    edges.  The run state is not among the persisted fields: every
    block comes back with [has_been_run] false, whatever it was. *)
Theorem serialize_deserialize_roundtrip (D : Scene CodeState) :
  BLOCK_TYPE_TO_NAME code ≠ BLOCK_TYPE_TO_NAME markdown →
  edges_resolve D →
  ∃ doc D',
    Scene_serialize BLOCK_TYPE_TO_NAME D = Some doc
    ∧ Scene_deserialize conv_convert BLOCK_TYPE_TO_NAME OCBBlock_DEFAULT_DATA
        doc true empty_scene = Some D'
    ∧ doc_equiv D D'
    ∧ blocks D' = restored conv_convert <$> blocks D
    ∧ (∀ k, k ∈ dom (blocks D) → run_state D' k = Some false).
Proof.
  intros Hnames Hwf.
  destruct (mapM_is_Some_2
              (λ kb : Z * Block CodeState,
                 serialize_block BLOCK_TYPE_TO_NAME kb.1 kb.2)
              (map_to_list (blocks D))) as [ds Hds].
  { apply Forall_forall. intros kb _. apply serialize_block_total. }
  pose proof (mapM_Some_1 _ _ _ Hds) as Hall.
  destruct (deserialize_blocks_fold _ _ Hnames Hall empty_scene ∅ eq_refl)
    as (h' & Hfold & _ & Hnew).
  set (m' := foldl (λ m kb, <[kb.1 := restored conv_convert kb.2]> m)
                   (∅ : gmap Z (Block CodeState)) (map_to_list (blocks D))).
  assert (m' = restored conv_convert <$> blocks D) as Hm'.
  { apply map_eq. intros k. subst m'.
    rewrite lookup_foldl_restored by apply NoDup_fst_map_to_list.
    rewrite list_to_map_to_list, lookup_fmap, lookup_empty.
    by destruct (blocks D !! k). }
  exists (mkDocument ds (edges D)), (mkScene m' (edges D)).
  split_and!.
  - unfold Scene_serialize. by rewrite Hds.
  - unfold Scene_deserialize. cbn [doc_blocks doc_edges].
    rewrite Hfold. cbn [mbind option_bind fst snd].
    rewrite deserialize_edges_fold; [done|].
    intros e He. destruct (Hwf e He) as (Hsb & Hdb & Hss & Hds').
    apply elem_of_dom in Hsb as [bs Hbs]. apply elem_of_dom in Hdb as [bd Hbd].
    apply elem_of_socket_ids in Hss as (ks & bss & ss & Hkss & Hss & Hssid).
    apply elem_of_socket_ids in Hds' as (kd & bds & sd & Hkds & Hsd & Hsdid).
    split_and!.
    + apply (Hnew (source_block e, bs)). by apply elem_of_map_to_list.
    + rewrite <- Hssid.
      apply (Hnew (ks, bss)); [by apply elem_of_map_to_list|done].
    + apply (Hnew (destination_block e, bd)). by apply elem_of_map_to_list.
    + rewrite <- Hsdid.
      apply (Hnew (kd, bds)); [by apply elem_of_map_to_list|done].
  - unfold doc_equiv. cbn [blocks edges]. rewrite Hm'. split_and!.
    + by rewrite dom_fmap_L.
    + intros k b Hb. exists (restored conv_convert b).
      rewrite lookup_fmap, Hb. split; [done|apply block_equiv_restored].
    + done.
  - done.
  - intros k [b Hb]%elem_of_dom. unfold run_state. cbn [blocks].
    rewrite Hm', lookup_fmap, Hb. cbn [fmap option_fmap option_map].
    unfold restored. by destruct (payload b).
Qed.

Lemma source_on_code_stdout_setter self v (sc : Scene CodeState) k :
  BFSVariant.source k
    (with_blocks
       (alter (on_code (OCBCodeBlock.stdout_setter conv_convert v)) self
              (blocks sc)) sc)
  = BFSVariant.source k sc.
Proof.
  unfold BFSVariant.source. cbn [blocks with_blocks].
  destruct (decide (self = k)) as [->|Hne].
  - rewrite lookup_alter_eq. destruct (blocks sc !! k) as [blk|]; [|done].
    cbn [fmap option_fmap option_map]. unfold on_code.
    destruct (payload blk) as [c|text] eqn:Hpay; cbn [payload with_payload].
    + by rewrite stdout_setter_source.
    + by rewrite Hpay.
  - by rewrite lookup_alter_ne.
Qed.

(** A document without a ["source"] key leaves the source of the block
    as it was: the key is not filled in, the setter is not called. *)
Lemma deserialize_without_source_keeps_source
    (sc sc' : Scene CodeState) self blk c data hashmap h' restore_id old_id :
  OCBBlock_DEFAULT_DATA !! "source" = None →
  data !! "source" = None →
  (data ∪ OCBBlock_DEFAULT_DATA) !! "id" = Some (JInt old_id) →
  blocks sc !! self = Some blk → payload blk = Code c →
  OCBCodeBlock_deserialize conv_convert OCBBlock_DEFAULT_DATA self data
    hashmap restore_id sc = Some (sc', h') →
  BFSVariant.source (if restore_id then old_id else self) sc'
  = Some (_source c).
Proof.
  intros Hdef Hdata Hid Hself Hpay.
  unfold OCBCodeBlock_deserialize, complete_with_default,
    OCBCodeBlock_DEFAULT_DATA.
  cbn [foldl mbind option_bind].
  rewrite (lookup_union_r _ _ _ Hdata), Hdef.
  intros Hres.
  assert (∃ sc1, BFSVariant.source self sc1 = Some (_source c)
                 ∧ OCBBlock_deserialize self (data ∪ OCBBlock_DEFAULT_DATA)
                     hashmap restore_id sc1 = Some (sc', h'))
    as (sc1 & Hsrc & Hbase).
  { destruct ((data ∪ OCBBlock_DEFAULT_DATA) !! "stdout") as [v|].
    - destruct v as [s| |]; try done. cbn [mbind option_bind] in Hres.
      rewrite setattr_stdout in Hres. cbn [mbind option_bind] in Hres.
      eexists. split; [|exact Hres].
      rewrite source_on_code_stdout_setter.
      unfold BFSVariant.source. by rewrite Hself, Hpay.
    - exists sc. split; [|done].
      unfold BFSVariant.source. by rewrite Hself, Hpay. }
  clear Hres. unfold OCBBlock_deserialize in Hbase.
  unfold BFSVariant.source in Hsrc.
  destruct (blocks sc1 !! self) as [blk1|] eqn:Hblk1; [|done].
  rewrite Hid in Hbase. cbn [mbind option_bind as_int] in Hbase.
  destruct ((data ∪ OCBBlock_DEFAULT_DATA) !! "title" ≫= as_str) as [t|];
    [|done].
  destruct ((data ∪ OCBBlock_DEFAULT_DATA) !! "sockets" ≫= as_sockets)
    as [socks|]; [|done].
  cbn [mbind option_bind] in Hbase.
  destruct (payload blk1) as [c1|] eqn:Hpay1; [|done].
  destruct restore_id.
  - injection Hbase as <- <-. unfold BFSVariant.source.
    cbn [blocks with_blocks]. rewrite lookup_insert_eq.
    cbn [payload with_sockets with_title]. by rewrite Hpay1.
  - destruct (renew_sockets _ _ _) as [socks' hm].
    injection Hbase as <- <-. unfold BFSVariant.source.
    cbn [blocks with_blocks]. rewrite lookup_insert_eq.
    cbn [payload with_sockets with_title]. by rewrite Hpay1.
Qed.

End SerializationFacts.

Lemma chain_scene_edges_resolve : edges_resolve chain_scene.
Proof.
  intros e ->%list_elem_of_singleton. cbn [source_block destination_block
    source_socket destination_socket]. split_and!.
  - apply elem_of_dom. eexists. reflexivity.
  - apply elem_of_dom. eexists. reflexivity.
  - apply elem_of_socket_ids.
    exists 1, (run_code_block "a = 1" 10 11), (mkSocket 11 output exe).
    split_and!; [reflexivity|set_solver|reflexivity].
  - apply elem_of_socket_ids.
    exists 2, (run_code_block "b = a" 20 21), (mkSocket 20 input exe).
    split_and!; [reflexivity|set_solver|reflexivity].
Defined.

Lemma serialize_deserialize_roundtrip_witness :
  ∃ doc D',
    Scene_serialize sample_names chain_scene = Some doc
    ∧ Scene_deserialize (λ s, s) sample_names sample_defaults doc true
        empty_scene = Some D'
    ∧ doc_equiv chain_scene D'
    ∧ blocks D' = restored (λ s, s) <$> blocks chain_scene
    ∧ (∀ k, k ∈ dom (blocks chain_scene) → run_state D' k = Some false).
Proof.
  apply (serialize_deserialize_roundtrip (λ s, s) sample_names sample_defaults
           chain_scene).
  - discriminate.
  - apply chain_scene_edges_resolve.
Defined.

(** C2 (as stated) fails: the scene whose three blocks have all been run
    is serialized and loaded back without error, with the same block ids
    and the same edges, but block 1, run before, is not run after: a
    field value has changed and the scene loaded is not the scene saved. *)
Lemma roundtrip_resets_has_been_run :
  ∃ doc D',
    Scene_serialize sample_names chain_scene = Some doc
    ∧ Scene_deserialize (λ s, s) sample_names sample_defaults doc true
        empty_scene = Some D'
    ∧ dom (blocks D') = dom (blocks chain_scene)
    ∧ edges D' = edges chain_scene
    ∧ run_state chain_scene 1 = Some true
    ∧ run_state D' 1 = Some false
    ∧ D' ≠ chain_scene.
Proof.
  eexists _, _. split_and!.
  - vm_compute. reflexivity.
  - vm_compute. reflexivity.
  - vm_compute. reflexivity.
  - reflexivity.
  - reflexivity.
  - reflexivity.
  - intros Heq. apply (f_equal (λ sc, run_state sc 1)) in Heq.
    vm_compute in Heq. discriminate.
Qed.

(** C8 (where the code departs from it). The table that gives ["source"]
    the empty string is a local name of [__init__]; the defaults [deserialize] completes
    the data with are the inherited ones.  A document without a
    ["source"] key therefore stays without it, the setter is not called,
    and a block whose source was "a = 1" still has that source after
    deserialization, not the default. *)
Theorem deserialize_missing_source_not_defaulted :
  init_local_DEFAULT_DATA sample_defaults !! "source" = Some (JStr EmptyString)
  ∧ OCBCodeBlock_DEFAULT_DATA sample_defaults !! "source" = None
  ∧ data_without_source !! "source" = None
  ∧ complete_with_default (OCBCodeBlock_DEFAULT_DATA sample_defaults)
      data_without_source !! "source" = None
  ∧ BFSVariant.source 1 chain_scene = Some "a = 1"
  ∧ (OCBCodeBlock_deserialize (λ s, s) sample_defaults 1 data_without_source
       ∅ true chain_scene ≫= λ r, BFSVariant.source 1 r.1) = Some "a = 1"
  ∧ (OCBCodeBlock_deserialize (λ s, s) sample_defaults 1 data_without_source
       ∅ true chain_scene ≫= λ r, BFSVariant.source 1 r.1) ≠ Some EmptyString.
Proof.
  assert ((OCBCodeBlock_deserialize (λ s, s) sample_defaults 1
             data_without_source ∅ true chain_scene
             ≫= λ r, BFSVariant.source 1 r.1) = Some "a = 1") as Hrun.
  { vm_compute. reflexivity. }
  split_and!; try (vm_compute; reflexivity).
  rewrite Hrun. discriminate.
Qed.

(** ** Notebook conversion *)

Section ConversionFacts.

Variable BLOCK_TYPE_TO_NAME : BlockType → string.
Variable TITLE_MAX_LENGTH : nat.

Lemma is_title_markdown t :
  is_title BLOCK_TYPE_TO_NAME TITLE_MAX_LENGTH
    (string_to_markdown_block BLOCK_TYPE_TO_NAME t)
  = negb (bool_decide (t = EmptyString))
    && negb (PyStr.contains PyStr.LF t)
    && negb (PyStr.startswith "#" t)
    && (String.length t <=? TITLE_MAX_LENGTH)%nat.
Proof.
  unfold is_title, string_to_markdown_block.
  rewrite lookup_insert_eq, lookup_insert_ne, lookup_insert_eq by done.
  cbn [mbind option_bind as_str].
  rewrite bool_decide_true by done. cbn [negb].
  case_bool_decide; [done|]. cbn [negb andb].
  destruct (PyStr.contains PyStr.LF t); [done|]. cbn [negb andb].
  destruct (PyStr.startswith "#" t); [done|]. cbn [negb andb].
  rewrite Nat.ltb_antisym. by destruct (String.length t <=? TITLE_MAX_LENGTH)%nat.
Qed.

(** C6. The text [t] of a markdown block is a title exactly when it is
    not empty, holds no newline, does not start with [#] and is no
    longer than the threshold; with a threshold that, as the conversion
    tests require, admits "Data Preprocessing" and refuses the long
    explanation, [is_title] is false on the empty text, true on "Data
    Preprocessing" and on "Étude de cas", false on "# Report", on the
    long explanation and on a text of two lines, and false on every text
    longer than the threshold. *)
Theorem is_title_policy :
  (18 ≤ TITLE_MAX_LENGTH)%nat → (TITLE_MAX_LENGTH < 116)%nat →
  let title_of t :=
    is_title BLOCK_TYPE_TO_NAME TITLE_MAX_LENGTH
      (string_to_markdown_block BLOCK_TYPE_TO_NAME t) in
  (∀ t, title_of t = true ↔
        t ≠ EmptyString ∧ (PyStr.LF ∉ PyStr.chars t)
        ∧ (¬ ∃ r, t = "#" +:+ r)
        ∧ (String.length t ≤ TITLE_MAX_LENGTH)%nat)
  ∧ title_of EmptyString = false
  ∧ title_of "Data Preprocessing" = true
  ∧ title_of etude_de_cas = true
  ∧ title_of "# Report" = false
  ∧ title_of long_explanation = false
  ∧ title_of two_lines = false
  ∧ (∀ t, (TITLE_MAX_LENGTH < String.length t)%nat → title_of t = false).
Proof.
  intros Hmin Hmax title_of.
  assert (∀ t, title_of t = true ↔
            t ≠ EmptyString ∧ (PyStr.LF ∉ PyStr.chars t)
            ∧ (¬ ∃ r, t = "#" +:+ r)
            ∧ (String.length t ≤ TITLE_MAX_LENGTH)%nat) as Hiff.
  { intros t. subst title_of. cbv beta. rewrite is_title_markdown.
    rewrite !andb_true_iff, !negb_true_iff, bool_decide_eq_false.
    rewrite contains_false, Nat.leb_le.
    rewrite <- (startswith_spec "#" t).
    destruct (PyStr.startswith "#" t); naive_solver. }
  split_and!; [done| | | | | | |].
  - subst title_of. cbv beta. by rewrite is_title_markdown.
  - apply Hiff. split_and!; [done| | |simpl; lia].
    + apply contains_false. reflexivity.
    + rewrite <- startswith_spec. by simpl.
  - apply Hiff. split_and!; [done| | |simpl; lia].
    + apply contains_false. reflexivity.
    + rewrite <- startswith_spec. by simpl.
  - subst title_of. cbv beta. by rewrite is_title_markdown.
  - subst title_of. cbv beta. rewrite is_title_markdown.
    apply andb_false_iff. right. apply Nat.leb_gt.
    change (String.length long_explanation) with 116%nat. lia.
  - subst title_of. cbv beta. by rewrite is_title_markdown.
  - intros t Hlen. subst title_of. cbv beta. rewrite is_title_markdown.
    apply andb_false_iff. right. apply Nat.leb_gt. lia.
Qed.

End ConversionFacts.

Lemma is_title_policy_witness :
  is_title sample_names 60 (string_to_markdown_block sample_names "Data Preprocessing")
  = true
  ∧ is_title sample_names 60 (string_to_markdown_block sample_names long_explanation)
    = false.
Proof.
  destruct (is_title_policy sample_names 60 ltac:(lia) ltac:(lia))
    as (_ & _ & Hdata & _ & _ & Hlong & _).
  split; [exact Hdata|exact Hlong].
Defined.

Section ConversionCoherence.

Variable BLOCK_TYPE_TO_NAME : BlockType → string.
Variable TITLE_MAX_LENGTH : nat.

Lemma lookup_block_of_cell_id cc :
  block_of_cell BLOCK_TYPE_TO_NAME TITLE_MAX_LENGTH cc !! "id"
  = Some (JInt (cc_id cc)).
Proof.
  unfold block_of_cell.
  destruct (cell_type (cc_cell cc)); [by simplify_map_eq|].
  case_match; by simplify_map_eq.
Qed.

Lemma lookup_block_of_cell_sockets cc :
  block_of_cell BLOCK_TYPE_TO_NAME TITLE_MAX_LENGTH cc !! "sockets"
  = Some (JSockets [mkSocket (cc_input cc) input exe;
                    mkSocket (cc_output cc) output exe]).
Proof.
  unfold block_of_cell.
  destruct (cell_type (cc_cell cc)); [by simplify_map_eq|].
  case_match; by simplify_map_eq.
Qed.

Lemma doc_block_ids_converted ccs es :
  doc_block_ids
    (mkDocument (block_of_cell BLOCK_TYPE_TO_NAME TITLE_MAX_LENGTH <$> ccs) es)
  = cc_id <$> ccs.
Proof.
  unfold doc_block_ids. cbn [doc_blocks].
  induction ccs as [|cc ccs IH]; [done|].
  cbn [fmap list_fmap omap list_omap].
  rewrite lookup_block_of_cell_id. cbn [mbind option_bind as_int].
  f_equal. apply IH.
Qed.

Lemma doc_socket_ids_converted ccs es :
  doc_socket_ids
    (mkDocument (block_of_cell BLOCK_TYPE_TO_NAME TITLE_MAX_LENGTH <$> ccs) es)
  = ccs ≫= (λ cc, [cc_input cc; cc_output cc]).
Proof.
  unfold doc_socket_ids. cbn [doc_blocks].
  induction ccs as [|cc ccs IH]; [done|].
  cbn [fmap list_fmap mbind list_bind].
  rewrite lookup_block_of_cell_sockets.
  cbn [mbind list_bind] in IH. rewrite IH. reflexivity.
Qed.

(** The ids of converted cells are drawn from the counter: they lie
    between its value before and its value after, the block ids are
    pairwise distinct, and so are the socket ids. *)
Lemma convert_cells_ids cells :
  ∀ n ccs n', convert_cells cells n = (ccs, n') →
    n ≤ n'
    ∧ length ccs = length cells
    ∧ (∀ cc, cc ∈ ccs →
         n ≤ cc_id cc < n' ∧ n ≤ cc_input cc < n' ∧ n ≤ cc_output cc < n')
    ∧ NoDup (cc_id <$> ccs)
    ∧ NoDup (ccs ≫= (λ cc, [cc_input cc; cc_output cc])).
Proof.
  induction cells as [|c cells IH]; intros n ccs n' Hconv.
  - cbn [convert_cells] in Hconv. unfold alloc_ret in Hconv.
    cbv beta in Hconv. simplify_eq. split_and!; [lia|done| |constructor|constructor].
    by intros cc ?%elem_of_nil.
  - cbn [convert_cells] in Hconv.
    cbv beta iota zeta delta [alloc_bind convert_cell alloc_ret new_id] in Hconv.
    destruct (convert_cells cells (n + 1 + 1 + 1)) as [rest n1] eqn:Hrest.
    simplify_eq.
    destruct (IH _ _ _ Hrest) as (Hle & Hlen & Hrange & Hnd1 & Hnd2).
    split_and!.
    + lia.
    + simpl. by rewrite Hlen.
    + intros cc [->|Hcc]%elem_of_cons; [simpl; lia|].
      destruct (Hrange cc Hcc) as (? & ? & ?). lia.
    + cbn [fmap list_fmap cc_id]. apply NoDup_cons. split; [|done].
      intros (cc & Heq & Hcc)%list_elem_of_fmap.
      destruct (Hrange cc Hcc) as (? & ? & ?). lia.
    + cbn [mbind list_bind cc_input cc_output app].
      apply NoDup_cons. split.
      { intros [Heq|Hin]%elem_of_cons; [lia|].
        apply list_elem_of_bind in Hin as (cc & Hin & Hcc).
        destruct (Hrange cc Hcc) as (? & ? & ?).
        apply elem_of_cons in Hin as [Heq|Hin]; [lia|].
        apply list_elem_of_singleton in Hin. lia. }
      apply NoDup_cons. split; [|done].
      intros Hin.
      apply list_elem_of_bind in Hin as (cc & Hin & Hcc).
      destruct (Hrange cc Hcc) as (? & ? & ?).
      apply elem_of_cons in Hin as [Heq|Hin]; [lia|].
      apply list_elem_of_singleton in Hin. lia.
Qed.

(** Every edge of the linking joins two converted cells. *)
Lemma elem_of_link_cells ccs e :
  e ∈ link_cells ccs →
  ∃ a b, a ∈ ccs ∧ b ∈ ccs
         ∧ e = mkEdge (cc_id a) (cc_output a) (cc_id b) (cc_input b).
Proof.
  induction ccs as [|a [|b ccs] IH]; cbn [link_cells].
  - by intros ?%elem_of_nil.
  - by intros ?%elem_of_nil.
  - intros [->|He]%elem_of_cons.
    + exists a, b. split_and!; [set_solver|set_solver|done].
    + destruct (IH He) as (a' & b' & Ha' & Hb' & ->).
      exists a', b'. split_and!; [set_solver|set_solver|done].
Qed.

(** C7. In the graph document converted from a notebook, the block ids
    are pairwise distinct, the socket ids are pairwise distinct over the
    whole document, and the source block, source socket, destination
    block and destination socket of every edge are ids of a block,
    respectively of a socket, of that document; there is one block, with
    its id, per cell. *)
Theorem converted_graph_is_coherent (notebook : option (list Cell)) :
  let doc := ipynb_to_ipyg BLOCK_TYPE_TO_NAME TITLE_MAX_LENGTH notebook in
  NoDup (doc_block_ids doc)
  ∧ NoDup (doc_socket_ids doc)
  ∧ (∀ e, e ∈ doc_edges doc →
       source_block e ∈ doc_block_ids doc
       ∧ source_socket e ∈ doc_socket_ids doc
       ∧ destination_block e ∈ doc_block_ids doc
       ∧ destination_socket e ∈ doc_socket_ids doc)
  ∧ length (doc_blocks doc) = length (default [] notebook)
  ∧ length (doc_block_ids doc) = length (default [] notebook).
Proof.
  unfold ipynb_to_ipyg.
  destruct (convert_cells (default [] notebook) 0) as [ccs n'] eqn:Hconv.
  destruct (convert_cells_ids _ _ _ _ Hconv) as (_ & Hlen & _ & Hnd1 & Hnd2).
  cbv zeta. rewrite doc_block_ids_converted, doc_socket_ids_converted.
  cbn [doc_edges doc_blocks]. split_and!.
  - done.
  - done.
  - intros e (a & b & Ha & Hb & ->)%elem_of_link_cells.
    cbn [source_block source_socket destination_block destination_socket].
    split_and!.
    + apply list_elem_of_fmap. by exists a.
    + apply list_elem_of_bind. exists a. split; [set_solver|done].
    + apply list_elem_of_fmap. by exists b.
    + apply list_elem_of_bind. exists b. split; [set_solver|done].
  - by rewrite length_fmap.
  - by rewrite length_fmap.
Qed.

End ConversionCoherence.

Example sample_notebook_converted :
  let doc := ipynb_to_ipyg sample_names 60 sample_notebook in
  doc_block_ids doc = [0; 3; 6] ∧ doc_socket_ids doc = [1; 2; 4; 5; 7; 8]
  ∧ doc_edges doc = [mkEdge 0 2 3 4; mkEdge 3 5 6 7].
Proof. vm_compute. done. Qed.

Example empty_notebook_converted :
  ipynb_to_ipyg sample_names 60 None = mkDocument [] [].
Proof. reflexivity. Qed.

(** * More properties *)

(** ** The output panel of the Code block *)

Section PanelFacts.

Import PyStr OCBCodeBlock OCBCodeBlockPanel.

Variable conv_convert : string → string.

Lemma stdout_setter_consistent value self :
  is_Some (output_panel self) →
  panel_consistent (stdout_setter conv_convert value self).
Proof.
  intros [p Hp]. unfold panel_consistent, stdout_setter.
  destruct self as [s o c e pn cl ss sp]. simpl in Hp. subst pn.
  destruct cl; simpl; case_bool_decide; simpl; naive_solver.
Qed.

Lemma stdout_setter_keeps_panel value self :
  is_Some (output_panel self) →
  is_Some (output_panel (stdout_setter conv_convert value self)).
Proof.
  intros Hp. rewrite (stdout_setter_panel conv_convert value self Hp).
  by eexists.
Qed.

Lemma handle_stdout_as_setter value self :
  ∃ cache shown,
    handle_stdout conv_convert value self
    = stdout_setter conv_convert shown (with_cached_stdout cache self).
Proof.
  unfold handle_stdout. destruct (contains LF value).
  - eexists _, _. reflexivity.
  - exists (_cached_stdout self), (_cached_stdout self +:+ value).
    by destruct self.
Qed.

Lemma apply_event_keeps_panel self e :
  is_Some (output_panel (code_state self)) →
  is_Some (output_panel (code_state (apply_event conv_convert self e))).
Proof.
  intros Hp. destruct e as [v|v|i|]; cbn [apply_event code_state].
  - by apply stdout_setter_keeps_panel.
  - destruct (handle_stdout_as_setter v (code_state self))
      as (cache & shown & ->).
    apply stdout_setter_keeps_panel. by destruct (code_state self).
  - by apply stdout_setter_keeps_panel.
  - unfold update_output_panel. case_bool_decide; [|done].
    by destruct (code_state self).
Qed.

Lemma apply_event_consistent self e :
  is_Some (output_panel (code_state self)) →
  panel_consistent (code_state self) →
  panel_consistent (code_state (apply_event conv_convert self e)).
Proof.
  intros Hp Hinv. destruct e as [v|v|i|]; cbn [apply_event code_state].
  - by apply stdout_setter_consistent.
  - destruct (handle_stdout_as_setter v (code_state self))
      as (cache & shown & ->).
    apply stdout_setter_consistent. by destruct (code_state self).
  - by apply stdout_setter_consistent.
  - unfold update_output_panel. case_bool_decide as Hout; [|done].
    unfold panel_consistent. destruct (code_state self); simpl in *.
    naive_solver.
Qed.

(** X1. Whatever output events reach a constructed Code block (output
    assigned, text fragments, images, geometry updates), in whatever
    order, its output panel is closed exactly when its output is empty. *)
Theorem output_panel_closed_iff_no_output
    (self : PanelState) (events : list OutputEvent) :
  is_Some (output_panel (code_state self)) →
  panel_consistent (code_state self) →
  let self' := apply_events conv_convert self events in
  is_Some (output_panel (code_state self'))
  ∧ (output_closed (code_state self') = true
     ↔ _stdout (code_state self') = EmptyString).
Proof.
  intros Hp Hinv. unfold apply_events. revert self Hp Hinv.
  induction events as [|e events IH]; intros self Hp Hinv; [done|].
  cbn [foldl]. apply IH.
  - by apply apply_event_keeps_panel.
  - by apply apply_event_consistent.
Qed.

(** X2. Emptying the output of a block whose panel is open closes the
    panel and remembers the splitter sizes; the next non-empty output
    opens the panel with exactly those sizes. *)
Theorem output_panel_close_then_open (self : CodeState) (value : string) :
  is_Some (output_panel self) → output_closed self = false →
  value ≠ EmptyString →
  let closed := stdout_setter conv_convert EmptyString self in
  let opened := stdout_setter conv_convert value closed in
  output_closed closed = true ∧ splitter closed = [1; 0]
  ∧ _splitter_size closed = splitter self
  ∧ output_closed opened = false ∧ splitter opened = splitter self.
Proof.
  intros [p Hp] Hopen Hne. unfold stdout_setter.
  destruct self as [s o c e pn cl ss sp]. simpl in *. subst pn cl.
  simpl. rewrite bool_decide_true by done. done.
Qed.

(** X3. Assigning the same output a second time changes nothing. *)
Theorem stdout_setter_idempotent (self : CodeState) (value : string) :
  stdout_setter conv_convert value (stdout_setter conv_convert value self)
  = stdout_setter conv_convert value self.
Proof.
  unfold stdout_setter. destruct self as [s o c e [p|] cl ss sp]; [|done].
  destruct cl; simpl; repeat (case_bool_decide; simpl); try done;
    naive_solver.
Qed.

End PanelFacts.

(** ** Streaming output *)

Section StreamingFacts.

Import PyStr OCBCodeBlock OCBCodeBlockPanel.

Variable conv_convert : string → string.

Lemma split_app_sep sep s t :
  split sep (s +:+ String sep t) = split sep s ++ split sep t.
Proof.
  induction s as [|a s IH].
  - change (EmptyString +:+ String sep t) with (String sep t).
    cbn [split]. by rewrite decide_True.
  - rewrite str_app_cons. cbn [split]. rewrite IH.
    pose proof (split_nonempty sep s) as Hne.
    case_decide; [done|]. by destruct (split sep s).
Qed.

Lemma complete_lines_app s t :
  complete_lines s → complete_lines t → complete_lines (s +:+ t).
Proof.
  intros Hs [->|[body ->]].
  - by rewrite str_app_empty_r.
  - right. exists (s +:+ body). by rewrite str_app_assoc.
Qed.

(** One fragment: what is appended to the cache is made of complete
    lines, and what is shown after the cache holds no newline. *)
Lemma handle_stdout_step value self :
  ∃ added partial,
    value = added +:+ partial
    ∧ complete_lines added ∧ contains LF partial = false
    ∧ _cached_stdout (handle_stdout conv_convert value self)
      = _cached_stdout self +:+ added
    ∧ _stdout (handle_stdout conv_convert value self)
      = _cached_stdout (handle_stdout conv_convert value self) +:+ partial.
Proof.
  destruct (contains LF value) eqn:Hnl.
  - exists (join NEWLINE (all_but_last (split LF value)) +:+ NEWLINE),
           (last_item (split LF value)).
    assert (_cached_stdout (handle_stdout conv_convert value self)
            = _cached_stdout self
                +:+ (join NEWLINE (all_but_last (split LF value)) +:+ NEWLINE))
      as Hcache.
    { unfold handle_stdout. rewrite Hnl, stdout_setter_cached.
      by destruct self. }
    split_and!.
    + symmetry. by apply split_lines.
    + right. by eexists.
    + apply (split_no_sep LF value).
      destruct (split_contains LF value Hnl) as (l & ls & x & ->).
      change (l :: ls ++ [x]) with ((l :: ls) ++ [x]).
      rewrite last_item_snoc. set_solver.
    + done.
    + rewrite Hcache, handle_stdout_cached_stdout, str_app_assoc. f_equal.
      symmetry. by apply split_lines.
  - exists EmptyString, value.
    assert (_cached_stdout (handle_stdout conv_convert value self)
            = _cached_stdout self) as Hcache.
    { unfold handle_stdout. by rewrite Hnl, stdout_setter_cached. }
    split_and!; [done|by left|done| |].
    + by rewrite Hcache, str_app_empty_r.
    + by rewrite Hcache, handle_stdout_cached_stdout.
Qed.

Lemma handle_fragments_snoc fragments value self :
  handle_fragments conv_convert (fragments ++ [value]) self
  = handle_stdout conv_convert value
      (handle_fragments conv_convert fragments self).
Proof. unfold handle_fragments. by rewrite foldl_snoc. Qed.

(** X4. However the output of a run is cut into fragments, the cached
    buffer only ever grows, by complete lines, and after each fragment
    [stdout] is the cached buffer followed by a piece without newline:
    only the last line shown can still change. *)
Theorem handle_fragments_cache_grows
    (fragments : list string) (self : CodeState) :
  let self' := handle_fragments conv_convert fragments self in
  (∃ added, complete_lines added
            ∧ _cached_stdout self' = _cached_stdout self +:+ added)
  ∧ (complete_lines (_cached_stdout self) →
     complete_lines (_cached_stdout self'))
  ∧ (fragments ≠ [] →
     ∃ partial, contains LF partial = false
                ∧ _stdout self' = _cached_stdout self' +:+ partial).
Proof.
  induction fragments as [|value fragments IH] using rev_ind.
  - split_and!; [|done|done].
    exists EmptyString. split; [by left|]. by rewrite str_app_empty_r.
  - cbv zeta in *. rewrite handle_fragments_snoc.
    destruct IH as ((added & Hadded & Hcache) & _ & _).
    destruct (handle_stdout_step value
                (handle_fragments conv_convert fragments self))
      as (added' & partial & _ & Hadded' & Hpartial & Hcache' & Hout).
    assert (complete_lines (added +:+ added')) as Hboth
      by by apply complete_lines_app.
    split_and!.
    + exists (added +:+ added'). split; [done|].
      by rewrite Hcache', Hcache, str_app_assoc.
    + intros Hself. rewrite Hcache', Hcache, str_app_assoc.
      by apply complete_lines_app.
    + intros _. by exists partial.
Qed.

Lemma contains_newline_terminated body :
  contains LF (body +:+ NEWLINE) = true.
Proof.
  apply contains_spec. rewrite chars_app. apply elem_of_app. right.
  apply elem_of_cons. by left.
Qed.

Lemma handle_stdout_terminated body self :
  _cached_stdout (handle_stdout conv_convert (body +:+ NEWLINE) self)
  = _cached_stdout self +:+ (body +:+ NEWLINE).
Proof.
  unfold handle_stdout. rewrite contains_newline_terminated.
  rewrite stdout_setter_cached. destruct self as [s o c e p cl ss sp].
  cbn [_cached_stdout with_cached_stdout]. f_equal. f_equal.
  unfold NEWLINE. rewrite split_app_sep.
  change (split LF EmptyString) with [EmptyString].
  by rewrite all_but_last_snoc, join_split.
Qed.

Lemma handle_fragments_terminated fragments :
  Forall (λ value, ∃ body, value = body +:+ NEWLINE) fragments →
  ∀ self,
    _cached_stdout (handle_fragments conv_convert fragments self)
    = _cached_stdout self +:+ concat_fragments fragments.
Proof.
  induction 1 as [|value fragments [body ->] _ IH]; intros self.
  - cbn. by rewrite str_app_empty_r.
  - cbn [handle_fragments foldl concat_fragments foldr].
    fold (handle_fragments conv_convert fragments
            (handle_stdout conv_convert (body +:+ NEWLINE) self)).
    rewrite IH, handle_stdout_terminated. by rewrite str_app_assoc.
Qed.

Lemma concat_fragments_snoc fragments value :
  concat_fragments (fragments ++ [value])
  = concat_fragments fragments +:+ value.
Proof.
  induction fragments as [|v fragments IH]; cbn.
  - by rewrite str_app_empty_r.
  - fold (concat_fragments fragments).
    fold (concat_fragments (fragments ++ [value])).
    by rewrite IH, str_app_assoc.
Qed.

(** X5. When every fragment ends with a newline, nothing is lost: the
    cached buffer, and [stdout] as soon as one fragment has come, is
    the former buffer followed by all the fragments in order. *)
Theorem handle_fragments_of_whole_lines
    (fragments : list string) (self : CodeState) :
  Forall (λ value, ∃ body, value = body +:+ NEWLINE) fragments →
  let self' := handle_fragments conv_convert fragments self in
  _cached_stdout self'
  = _cached_stdout self +:+ concat_fragments fragments
  ∧ (fragments ≠ [] →
     _stdout self' = _cached_stdout self +:+ concat_fragments fragments).
Proof.
  intros Hall. cbv zeta.
  split; [by apply handle_fragments_terminated|]. intros Hne.
  destruct (exists_last Hne) as (init & value & ->).
  apply Forall_app in Hall as [Hinit _].
  rewrite handle_fragments_snoc, handle_stdout_cached_stdout.
  rewrite (handle_fragments_terminated init Hinit).
  by rewrite concat_fragments_snoc, str_app_assoc.
Qed.

(** X6. An image signal stores the image behind the image marker, shows
    it as an HTML image of that very data, opens the panel, and leaves
    the cached text alone; the next text fragment takes its place. *)
Theorem handle_image_shows_image (image value : string) (self : CodeState) :
  is_Some (output_panel self) →
  let self' := handle_image conv_convert image self in
  _stdout self' = "<img>" +:+ image
  ∧ output_panel self' = Some (b64_to_html image)
  ∧ output_closed self' = false
  ∧ _cached_stdout self' = _cached_stdout self
  ∧ _stdout (handle_stdout conv_convert value self')
    = _cached_stdout self +:+ value.
Proof.
  intros Hp. cbv zeta. unfold handle_image.
  pose proof (stdout_setter_consistent conv_convert ("<img>" +:+ image)
                self Hp) as Hcons.
  rewrite stdout_setter_stdout in *.
  rewrite (stdout_setter_panel conv_convert _ self Hp).
  rewrite handle_stdout_cached_stdout, stdout_setter_cached.
  split_and!; try done.
  unfold panel_consistent in Hcons. rewrite stdout_setter_stdout in Hcons.
  destruct (output_closed _); [|done].
  by destruct Hcons as [Hcons _]; specialize (Hcons eq_refl).
Qed.

End StreamingFacts.

(** ** The [source] assignment, block by block *)

Section SourceSetterFacts.

Lemma lookup_source_setter_effect (sc : Scene CodeState) self value k :
  blocks (BFSVariant.source_setter self value sc) !! k
  = source_setter_effect sc self value k <$> blocks sc !! k.
Proof.
  unfold BFSVariant.source_setter, source_setter_effect, source_changes.
  destruct (blocks sc !! self) as [blk|] eqn:Hself;
    [|by destruct (blocks sc !! k)].
  destruct (payload blk) as [c|text] eqn:Hpay;
    [|by destruct (blocks sc !! k)].
  case_bool_decide as Hne; [|by destruct (blocks sc !! k)].
  cbn [blocks with_blocks]. case_bool_decide as Hk.
  - subst k. rewrite lookup_alter_eq, lookup_foldl_set_not_run, Hself.
    unfold commit_source.
    destruct (decide (self ∈ custom_bfs sc self)); simpl;
      unfold on_code; simpl; rewrite Hpay; done.
  - rewrite lookup_alter_ne by done. rewrite lookup_foldl_set_not_run.
    destruct (decide (k ∈ custom_bfs sc self)).
    + by rewrite bool_decide_true.
    + rewrite bool_decide_false by done. by destruct (blocks sc !! k).
Qed.

Lemma edges_source_setter (sc : Scene CodeState) self value :
  edges (BFSVariant.source_setter self value sc) = edges sc.
Proof.
  unfold BFSVariant.source_setter.
  destruct (blocks sc !! self) as [blk|]; [|done].
  destruct (payload blk); [|done]. case_bool_decide; [|done].
  cbn [edges with_blocks]. apply edges_foldl_set_not_run.
Qed.

Lemma source_setter_effect_same (sc : Scene CodeState) self value k b :
  same_but_source_and_run b (source_setter_effect sc self value k b).
Proof.
  unfold source_setter_effect, same_but_source_and_run, commit_source, on_code.
  destruct b as [t socks run [c|text]];
    repeat (case_match; simpl in *; simplify_eq; try done);
    destruct c; simpl; done.
Qed.

Lemma source_setter_effect_sockets (sc : Scene CodeState) self value k b :
  sockets (source_setter_effect sc self value k b) = sockets b.
Proof. by destruct (source_setter_effect_same sc self value k b) as (_ & ? & _). Qed.

Lemma source_setter_effect_payload (sc : Scene CodeState) self value k b :
  k ≠ self →
  payload (source_setter_effect sc self value k b) = payload b.
Proof.
  intros Hk. unfold source_setter_effect.
  destruct (source_changes sc self value); [|done].
  rewrite bool_decide_false by done. by case_bool_decide.
Qed.

Lemma is_exe_output_source_setter (sc : Scene CodeState) self value b s :
  is_exe_output (BFSVariant.source_setter self value sc) b s
  = is_exe_output sc b s.
Proof.
  unfold is_exe_output. rewrite lookup_source_setter_effect.
  destruct (blocks sc !! b) as [blk|]; [|done].
  cbn [fmap option_fmap option_map]. by rewrite source_setter_effect_sockets.
Qed.

Lemma exe_links_source_setter (sc : Scene CodeState) self value :
  exe_links (BFSVariant.source_setter self value sc) = exe_links sc.
Proof.
  unfold exe_links. rewrite edges_source_setter.
  induction (edges sc) as [|e es IH]; [done|].
  cbn [omap list_omap]. by rewrite is_exe_output_source_setter, IH.
Qed.

Lemma custom_bfs_source_setter (sc : Scene CodeState) self value start :
  custom_bfs (BFSVariant.source_setter self value sc) start
  = custom_bfs sc start.
Proof. unfold custom_bfs. by rewrite exe_links_source_setter. Qed.

Lemma reachable_source_setter (sc : Scene CodeState) self value a b :
  reachable (BFSVariant.source_setter self value sc) a b ↔ reachable sc a b.
Proof.
  rewrite <- !elem_of_custom_bfs. by rewrite custom_bfs_source_setter.
Qed.

(** X7. Assigning a source never adds, removes or renames a block or an
    edge, never changes a title, a socket, an output or a Markdown text,
    and never marks a block as run; the execution-flow graph, and so
    what is reachable from where, is the same before and after. *)
Theorem source_setter_frame (sc : Scene CodeState) (self : Z) (value : string) :
  let sc' := BFSVariant.source_setter self value sc in
  dom (blocks sc') = dom (blocks sc)
  ∧ edges sc' = edges sc
  ∧ (∀ k b, blocks sc !! k = Some b →
       ∃ b', blocks sc' !! k = Some b' ∧ same_but_source_and_run b b')
  ∧ (∀ k, run_state sc' k = Some true → run_state sc k = Some true)
  ∧ (∀ a b, reachable sc' a b ↔ reachable sc a b).
Proof.
  cbv zeta. split_and!.
  - apply set_eq. intros k. rewrite !elem_of_dom.
    rewrite lookup_source_setter_effect. by rewrite fmap_is_Some.
  - apply edges_source_setter.
  - intros k b Hb. rewrite lookup_source_setter_effect, Hb.
    eexists. split; [done|]. apply source_setter_effect_same.
  - intros k. unfold run_state. rewrite lookup_source_setter_effect.
    destruct (blocks sc !! k) as [b|]; [|done]. simpl.
    destruct (source_setter_effect_same sc self value k b) as (_ & _ & Hrun & _).
    intros [= Htrue]. by rewrite Hrun.
  - apply reachable_source_setter.
Qed.

Lemma source_changes_after (sc : Scene CodeState) self value :
  source_changes (BFSVariant.source_setter self value sc) self value = false.
Proof.
  unfold source_changes at 1. rewrite lookup_source_setter_effect.
  unfold source_setter_effect.
  destruct (source_changes sc self value) eqn:Hch.
  - rewrite bool_decide_true by done. unfold source_changes in Hch.
    destruct (blocks sc !! self) as [blk|]; [|done]. simpl.
    unfold commit_source, on_code.
    destruct (payload blk) as [c|]; [|done]. simpl.
    rewrite bool_decide_false; [done|]. intros Hne. by apply Hne.
  - unfold source_changes in Hch.
    destruct (blocks sc !! self) as [blk|]; [|done]. simpl. done.
Qed.

Lemma source_setter_unchanged (sc : Scene CodeState) self value :
  source_changes sc self value = false →
  BFSVariant.source_setter self value sc = sc.
Proof.
  unfold source_changes, BFSVariant.source_setter.
  destruct (blocks sc !! self) as [blk|]; [|done].
  destruct (payload blk); [|done]. by intros ->.
Qed.

(** X8. After an assignment the getter returns the value assigned,
    whether or not it differed from the source, and assigning the same
    value again changes nothing. *)
Theorem source_setter_get_and_repeat
    (sc : Scene CodeState) (self : Z) (blk : Block CodeState) (c : CodeState)
    (value : string) :
  blocks sc !! self = Some blk → payload blk = Code c →
  let sc' := BFSVariant.source_setter self value sc in
  BFSVariant.source self sc' = Some value
  ∧ BFSVariant.source_setter self value sc' = sc'.
Proof.
  intros Hself Hpay. cbv zeta. split.
  - unfold BFSVariant.source. rewrite lookup_source_setter_effect, Hself.
    simpl. unfold source_setter_effect, source_changes.
    rewrite Hself, Hpay. case_bool_decide as Hne.
    + rewrite bool_decide_true by done.
      unfold commit_source, on_code. simpl. by rewrite Hpay.
    + rewrite Hpay. f_equal.
      destruct (decide (value = _source c)); [done|by destruct Hne].
  - apply source_setter_unchanged, source_changes_after.
Qed.

Lemma source_changes_other (sc : Scene CodeState) a b v w :
  a ≠ b →
  source_changes (BFSVariant.source_setter b w sc) a v = source_changes sc a v.
Proof.
  intros Hab. unfold source_changes.
  rewrite lookup_source_setter_effect.
  destruct (blocks sc !! a) as [blk|]; [|done]. simpl.
  by rewrite source_setter_effect_payload.
Qed.

Lemma source_setter_effect_other (sc : Scene CodeState) a b v w k blk :
  a ≠ b →
  source_setter_effect (BFSVariant.source_setter b w sc) a v k blk
  = source_setter_effect sc a v k blk.
Proof.
  intros Hab. unfold source_setter_effect.
  by rewrite source_changes_other, custom_bfs_source_setter.
Qed.

Lemma source_setter_effect_commute (sc : Scene CodeState) a b v w k blk :
  a ≠ b →
  source_setter_effect sc a v k (source_setter_effect sc b w k blk)
  = source_setter_effect sc b w k (source_setter_effect sc a v k blk).
Proof.
  intros Hab. unfold source_setter_effect.
  destruct (source_changes sc a v), (source_changes sc b w); try done.
  repeat case_bool_decide; simplify_eq; try done;
    by destruct blk as [t socks run [c|text]].
Qed.

(** X9. Assignments to the sources of two different blocks can be made
    in either order: the resulting scene is the same. *)
Theorem source_setter_commute
    (sc : Scene CodeState) (a b : Z) (v w : string) :
  a ≠ b →
  BFSVariant.source_setter a v (BFSVariant.source_setter b w sc)
  = BFSVariant.source_setter b w (BFSVariant.source_setter a v sc).
Proof.
  intros Hab.
  assert (∀ x y : Scene CodeState,
            blocks x = blocks y → edges x = edges y → x = y) as Hext.
  { intros [bx ex] [by' ey]. simpl. by intros -> ->. }
  apply Hext.
  - apply map_eq. intros k. rewrite !lookup_source_setter_effect.
    rewrite <- !option_fmap_compose.
    apply option_fmap_ext. intros blk. simpl.
    rewrite !source_setter_effect_other by done.
    by apply source_setter_effect_commute.
  - by rewrite !edges_source_setter.
Qed.

End SourceSetterFacts.

(** ** Rendering text *)

Section RenderingFacts.

Import PyStr OCBCodeBlock.

Variable conv_convert : string → string.

Lemma chars_inj s t : chars s = chars t → s = t.
Proof.
  revert t. induction s as [|a s IH]; intros [|b t]; simpl; try done.
  intros [= -> Hst]. f_equal. by apply IH.
Qed.

Lemma chars_remove_controls text :
  chars (remove_controls text)
  = filter (λ a, a ≠ CR ∧ a ≠ BS) (chars text).
Proof.
  unfold remove_controls. rewrite !chars_replace_char.
  apply list_filter_filter.
Qed.

Lemma filter_no_controls (l : list ascii) :
  (BS ∉ l) → (CR ∉ l) → filter (λ a, a ≠ CR ∧ a ≠ BS) l = l.
Proof.
  induction l as [|a l IH]; [done|]. intros Hbs Hcr.
  rewrite filter_cons_True by set_solver. f_equal. apply IH; set_solver.
Qed.

(** X10. Rendering looks at a text only through what is left of it
    without backspaces and carriage returns: two texts that differ only
    in such characters are rendered alike; a text without them is handed
    over unchanged; and the characters removed from a text in two pieces
    are those removed from each piece. *)
Theorem str_to_html_ignores_controls (text text' : string) :
  (filter (λ a, a ≠ CR ∧ a ≠ BS) (chars text)
   = filter (λ a, a ≠ CR ∧ a ≠ BS) (chars text') →
   str_to_html conv_convert text = str_to_html conv_convert text')
  ∧ remove_controls (remove_controls text) = remove_controls text
  ∧ ((BS ∉ chars text) → (CR ∉ chars text) → remove_controls text = text)
  ∧ remove_controls (text +:+ text')
    = remove_controls text +:+ remove_controls text'.
Proof.
  split_and!.
  - intros Hsame. unfold str_to_html. cbv zeta. do 2 f_equal.
    apply chars_inj. by rewrite !chars_remove_controls.
  - apply chars_inj. rewrite !chars_remove_controls.
    rewrite list_filter_filter. apply list_filter_iff. naive_solver.
  - intros Hbs Hcr. apply chars_inj. rewrite chars_remove_controls.
    by apply filter_no_controls.
  - apply chars_inj.
    rewrite chars_app, !chars_remove_controls, chars_app.
    apply filter_app.
Qed.

End RenderingFacts.

(** ** The simpler Code block *)

Section SimpleOutputFacts.

Import SimpleCodeBlock.

Variable conv_convert : string → string.

(** X11. On a constructed block of the simpler class, assigning [stdout]
    succeeds, stores the value, erases the image, shows the markup the
    converter makes of the value without its backspaces (carriage
    returns are kept), and leaves the panel closed exactly when the
    value is empty. *)
Theorem simple_stdout_setter_shows_text (value : string) (self : State) :
  constructed self →
  ∃ self',
    stdout_setter conv_convert value self = Some self'
    ∧ _stdout self' = value ∧ _image self' = EmptyString
    ∧ output_panel self'
      = Some (PyStr.replace "background-color: #000000"
                "background-color: #434343"
                (conv_convert (remove_backspaces value)))
    ∧ PyStr.chars (remove_backspaces value)
      = filter (λ a, a ≠ PyStr.BS) (PyStr.chars value)
    ∧ (output_closed self' = Some true ↔ value = EmptyString)
    ∧ constructed self'.
Proof.
  intros ([closed Hc] & [ed He] & [pn Hp]).
  destruct self as [out img cl prev sp e p]. simpl in *. subst cl e p.
  unfold stdout_setter, image_setter, toggle_panel, output_panel_setText.
  destruct closed; simpl; case_bool_decide as Hv; simpl;
    (eexists; split; [reflexivity|]); simpl;
    split_and!;
    first [ done | apply chars_replace_char | naive_solver
          | unfold constructed; simpl; split_and!; by eexists ].
Qed.

End SimpleOutputFacts.

Section SimpleImageFacts.

Import SimpleCodeBlock.

(** X12. On a constructed block of the simpler class, assigning [image]
    succeeds, stores the image, never touches [stdout] and never closes
    the panel; a non-empty image opens the panel and is shown as an HTML
    image; the empty image changes nothing but the stored image, so the
    panel keeps showing what it showed. *)
Theorem simple_image_setter_shows_image (image : string) (self : State) :
  constructed self →
  ∃ self',
    image_setter image self = Some self'
    ∧ _image self' = image ∧ _stdout self' = _stdout self
    ∧ (output_closed self = Some false → output_closed self' = Some false)
    ∧ (image ≠ EmptyString →
         output_closed self' = Some false
         ∧ output_panel self'
           = Some ("<img src=" +:+ OCBCodeBlock.DQUOTE
                     +:+ "data:image/png;base64," +:+ image
                     +:+ OCBCodeBlock.DQUOTE +:+ ">"))
    ∧ (image = EmptyString → self' = with_image EmptyString self)
    ∧ constructed self'.
Proof.
  intros ([closed Hc] & [ed He] & [pn Hp]).
  destruct self as [out img cl prev sp e p]. simpl in *. subst cl e p.
  unfold image_setter, toggle_panel, output_panel_setText.
  destruct closed; simpl; case_bool_decide as Hv; simpl;
    repeat (case_bool_decide; simpl; try done);
    (eexists; split; [reflexivity|]); simpl;
    split_and!;
    first [ done | naive_solver
          | unfold constructed; simpl; split_and!; by eexists ].
Qed.

End SimpleImageFacts.

Section SimpleSourceFacts.

Lemma simple_source_step v1 v2 (b : Block SimpleCodeState) :
  on_code (λ s, let s := mkSimple v2 (s_source_editor s) in
                match s_source_editor s with
                | Some _ => mkSimple (s_source s) (Some (s_source s))
                | None => s
                end)
    (on_code (λ s, let s := mkSimple v1 (s_source_editor s) in
                   match s_source_editor s with
                   | Some _ => mkSimple (s_source s) (Some (s_source s))
                   | None => s
                   end) b)
  = on_code (λ s, let s := mkSimple v2 (s_source_editor s) in
                  match s_source_editor s with
                  | Some _ => mkSimple (s_source s) (Some (s_source s))
                  | None => s
                  end) b.
Proof.
  destruct b as [t socks run [[src [ed|]]|text]]; reflexivity.
Qed.

(** X13. With the simpler class, the getter returns what was last
    assigned, the editor (when there is one) shows it, a later
    assignment makes an earlier one to the same block forgotten, and no
    other block is touched. *)
Theorem simple_source_setter_last_write_wins
    (sc : Scene SimpleCodeState) (self : Z) (v1 v2 : string) :
  SimpleVariant.source_setter self v2 (SimpleVariant.source_setter self v1 sc)
  = SimpleVariant.source_setter self v2 sc
  ∧ (∀ blk s, blocks sc !! self = Some blk → payload blk = Code s →
       SimpleVariant.source self (SimpleVariant.source_setter self v1 sc)
       = Some v1
       ∧ ∃ blk' s',
           blocks (SimpleVariant.source_setter self v1 sc) !! self = Some blk'
           ∧ payload blk' = Code s'
           ∧ s_source_editor s' = (λ _, v1) <$> s_source_editor s)
  ∧ (∀ k, k ≠ self →
       blocks (SimpleVariant.source_setter self v1 sc) !! k = blocks sc !! k)
  ∧ edges (SimpleVariant.source_setter self v1 sc) = edges sc.
Proof.
  split_and!.
  - unfold SimpleVariant.source_setter, with_blocks. cbn [blocks edges].
    f_equal. rewrite alter_alter_eq. apply alter_ext.
    intros b _. apply simple_source_step.
  - intros blk s Hself Hpay. unfold SimpleVariant.source, SimpleVariant.source_setter.
    cbn [blocks with_blocks]. rewrite lookup_alter_eq, Hself. simpl.
    unfold on_code. rewrite Hpay. simpl.
    destruct s as [src [ed|]]; simpl; (split; [done|]);
      eexists _, _; split_and!; done.
  - intros k Hk. unfold SimpleVariant.source_setter.
    cbn [blocks with_blocks]. by rewrite lookup_alter_ne.
  - done.
Qed.

End SimpleSourceFacts.

(** ** The sockets of a block *)

Section SocketFacts.

Variable F : Type.
Variables (fadd fsub fmul fdiv : F → F → F) (of_nat : nat → F).

Lemma numbered_snoc (l : list (OCBBlock.Socket F)) t r p :
  OCBBlock.numbered F l →
  OCBBlock.numbered F (l ++ [OCBBlock.mkSocket F t (length l) r p]).
Proof.
  intros Hl i socket Hi.
  apply lookup_app_Some in Hi as [Hi|[Hlen Hi]]; [by apply Hl|].
  apply list_lookup_singleton_Some in Hi as [Hi <-]. simpl. lia.
Qed.

Lemma numbered_setPos (l : list (OCBBlock.Socket F)) f :
  OCBBlock.numbered F l →
  OCBBlock.numbered F ((λ socket, OCBBlock.setPos F (f socket) socket) <$> l).
Proof.
  intros Hl i socket Hi. rewrite list_lookup_fmap in Hi.
  destruct (l !! i) as [s|] eqn:Hs; [|done]. simpl in Hi.
  injection Hi as <-. simpl. by apply Hl.
Qed.

(** The position depends on the block through its geometry and the
    number of sockets on the socket's side, and on the socket through
    its type, index and radius. *)
Lemma get_socket_pos_ext (s s' : OCBBlock.State F) (k k' : OCBBlock.Socket F) :
  OCBBlock.width F s' = OCBBlock.width F s →
  OCBBlock.height F s' = OCBBlock.height F s →
  OCBBlock.title_height F s' = OCBBlock.title_height F s →
  OCBBlock.edge_size F s' = OCBBlock.edge_size F s →
  OCBBlock.get_n_sockets F (OCBBlock.socket_type F k) s'
  = OCBBlock.get_n_sockets F (OCBBlock.socket_type F k) s →
  OCBBlock.socket_type F k' = OCBBlock.socket_type F k →
  OCBBlock.index F k' = OCBBlock.index F k →
  OCBBlock.radius F k' = OCBBlock.radius F k →
  OCBBlock.get_socket_pos F fadd fsub fmul fdiv of_nat s' k'
  = OCBBlock.get_socket_pos F fadd fsub fmul fdiv of_nat s k.
Proof.
  intros Hw Hh Ht He Hn Hty Hi Hr. unfold OCBBlock.get_socket_pos.
  by rewrite Hty, Hi, Hr, Hw, Hh, Ht, He, Hn.
Qed.

Lemma elem_of_setPos (l : list (OCBBlock.Socket F)) f k' :
  k' ∈ (λ socket, OCBBlock.setPos F (f socket) socket) <$> l →
  ∃ k, k ∈ l ∧ k' = OCBBlock.setPos F (f k) k.
Proof. intros (k & -> & Hk)%list_elem_of_fmap. by exists k. Qed.

(** Repositioning the input side. *)
Lemma update_sockets_input (s : OCBBlock.State F) :
  OCBBlock.numbered F (OCBBlock.sockets_in F s) →
  (∀ k, k ∈ OCBBlock.sockets_in F s → OCBBlock.socket_type F k = "input") →
  let s' := OCBBlock.update_sockets F fadd fsub fmul fdiv of_nat "input" s in
  OCBBlock.numbered F (OCBBlock.sockets_in F s')
  ∧ length (OCBBlock.sockets_in F s') = length (OCBBlock.sockets_in F s)
  ∧ OCBBlock.sockets_out F s' = OCBBlock.sockets_out F s
  ∧ OCBBlock.width F s' = OCBBlock.width F s
  ∧ OCBBlock.height F s' = OCBBlock.height F s
  ∧ OCBBlock.title_height F s' = OCBBlock.title_height F s
  ∧ OCBBlock.edge_size F s' = OCBBlock.edge_size F s
  ∧ (∀ k, k ∈ OCBBlock.sockets_in F s' →
       OCBBlock.socket_type F k = "input"
       ∧ OCBBlock.pos F k
         = Some (OCBBlock.get_socket_pos F fadd fsub fmul fdiv of_nat s' k)).
Proof.
  intros Hnum Hty. unfold OCBBlock.update_sockets.
  rewrite bool_decide_true by done. cbv zeta.
  destruct s as [ins outs w h th es]. cbn in *.
  split_and!; try done.
  - by apply numbered_setPos.
  - by rewrite length_fmap.
  - intros k' (k & Hk & ->)%elem_of_setPos. cbn. split; [by apply Hty|].
    f_equal. symmetry. apply get_socket_pos_ext; try done.
    cbn. rewrite (Hty k Hk). unfold OCBBlock.get_n_sockets.
    rewrite bool_decide_true by done. cbn. by rewrite length_fmap.
Qed.

(** Repositioning the other side. *)
Lemma update_sockets_output (s : OCBBlock.State F) :
  OCBBlock.numbered F (OCBBlock.sockets_out F s) →
  (∀ k, k ∈ OCBBlock.sockets_out F s → OCBBlock.socket_type F k ≠ "input") →
  let s' := OCBBlock.update_sockets F fadd fsub fmul fdiv of_nat "output" s in
  OCBBlock.numbered F (OCBBlock.sockets_out F s')
  ∧ length (OCBBlock.sockets_out F s') = length (OCBBlock.sockets_out F s)
  ∧ OCBBlock.sockets_in F s' = OCBBlock.sockets_in F s
  ∧ OCBBlock.width F s' = OCBBlock.width F s
  ∧ OCBBlock.height F s' = OCBBlock.height F s
  ∧ OCBBlock.title_height F s' = OCBBlock.title_height F s
  ∧ OCBBlock.edge_size F s' = OCBBlock.edge_size F s
  ∧ (∀ k, k ∈ OCBBlock.sockets_out F s' →
       OCBBlock.socket_type F k ≠ "input"
       ∧ OCBBlock.pos F k
         = Some (OCBBlock.get_socket_pos F fadd fsub fmul fdiv of_nat s' k)).
Proof.
  intros Hnum Hty. unfold OCBBlock.update_sockets.
  rewrite bool_decide_false by done. cbv zeta.
  destruct s as [ins outs w h th es]. cbn in *.
  split_and!; try done.
  - by apply numbered_setPos.
  - by rewrite length_fmap.
  - intros k' (k & Hk & ->)%elem_of_setPos. cbn. split; [by apply Hty|].
    f_equal. symmetry. apply get_socket_pos_ext; try done.
    cbn. unfold OCBBlock.get_n_sockets.
    rewrite bool_decide_false by by apply Hty. cbn. by rewrite length_fmap.
Qed.

Lemma add_socket_in_order r t (s : OCBBlock.State F) :
  sockets_in_order fadd fsub fmul fdiv of_nat s →
  let s' := OCBBlock.add_socket F fadd fsub fmul fdiv of_nat r t s in
  sockets_in_order fadd fsub fmul fdiv of_nat s'
  ∧ length (OCBBlock.sockets_in F s')
    = (length (OCBBlock.sockets_in F s)
       + if bool_decide (t = "input") then 1 else 0)%nat
  ∧ length (OCBBlock.sockets_out F s')
    = (length (OCBBlock.sockets_out F s)
       + if bool_decide (t = "input") then 0 else 1)%nat.
Proof.
  intros (Hin & Hout & Htin & Htout). cbv zeta.
  unfold OCBBlock.add_socket, OCBBlock.get_n_sockets.
  case_bool_decide as Ht.
  - subst t.
    set (s1 := OCBBlock.with_sockets_in F _ s).
    destruct (update_sockets_input s1) as
      (Hin' & Hlen & Hout' & Hw & Hh & Hth & Hes & Hpos).
    { subst s1. destruct s. cbn in *. by apply numbered_snoc. }
    { subst s1. destruct s. cbn in *.
      intros k [Hk| ->%list_elem_of_singleton]%elem_of_app; [|done].
      by apply Htin. }
    split_and!.
    + unfold sockets_in_order. split_and!.
      * done.
      * rewrite Hout'. subst s1. destruct s; cbn in *; done.
      * done.
      * rewrite Hout'. intros k Hk.
        assert (k ∈ OCBBlock.sockets_out F s) as Hk'
          by (subst s1; destruct s; cbn in *; done).
        destruct (Htout k Hk') as [Hty Hp]. split; [done|].
        rewrite Hp. f_equal. symmetry.
        apply get_socket_pos_ext; try done;
          try (subst s1; destruct s; cbn in *; congruence).
        unfold OCBBlock.get_n_sockets. rewrite !bool_decide_false by done.
        rewrite Hout'. subst s1. destruct s; cbn in *; done.
    + rewrite Hlen. subst s1. destruct s. cbn. by rewrite length_app.
    + rewrite Hout'. subst s1. destruct s. cbn. lia.
  - set (s1 := OCBBlock.with_sockets_out F _ s).
    destruct (update_sockets_output s1) as
      (Hout' & Hlen & Hin' & Hw & Hh & Hth & Hes & Hpos).
    { subst s1. destruct s. cbn in *. by apply numbered_snoc. }
    { subst s1. destruct s. cbn in *.
      intros k [Hk| ->%list_elem_of_singleton]%elem_of_app; [|done].
      by apply Htout. }
    split_and!.
    + unfold sockets_in_order. split_and!; [| |
        |done].
      * rewrite Hin'. subst s1. destruct s; cbn in *; done.
      * done.
      * rewrite Hin'. intros k Hk.
        assert (k ∈ OCBBlock.sockets_in F s) as Hk'
          by (subst s1; destruct s; cbn in *; done).
        destruct (Htin k Hk') as [Hty Hp]. split; [done|].
        rewrite Hp. f_equal. symmetry.
        apply get_socket_pos_ext; try done;
          try (subst s1; destruct s; cbn in *; congruence).
        unfold OCBBlock.get_n_sockets. rewrite Hty.
        rewrite !bool_decide_true by done.
        rewrite Hin'. subst s1. destruct s; cbn in *; done.
    + rewrite Hin'. subst s1. destruct s. cbn. lia.
    + rewrite Hlen. subst s1. destruct s. cbn. by rewrite length_app.
Qed.

Lemma width_setter_in_order v (s : OCBBlock.State F) :
  sockets_in_order fadd fsub fmul fdiv of_nat s →
  let s' := OCBBlock.width_setter F fadd fsub fmul fdiv of_nat v s in
  sockets_in_order fadd fsub fmul fdiv of_nat s'
  ∧ OCBBlock.width F s' = v
  ∧ length (OCBBlock.sockets_in F s') = length (OCBBlock.sockets_in F s)
  ∧ length (OCBBlock.sockets_out F s') = length (OCBBlock.sockets_out F s).
Proof.
  intros (Hin & Hout & Htin & Htout). cbv zeta. unfold OCBBlock.width_setter.
  set (s1 := OCBBlock.with_width F v s).
  destruct (update_sockets_input s1) as
    (Hin1 & Hlen1 & Hout1 & Hw1 & Hh1 & Hth1 & Hes1 & Hpos1).
  { subst s1. destruct s; cbn in *; done. }
  { subst s1. destruct s. cbn in *. intros k Hk. by apply Htin. }
  set (s2 := OCBBlock.update_sockets F fadd fsub fmul fdiv of_nat "input" s1) in *.
  destruct (update_sockets_output s2) as
    (Hout2 & Hlen2 & Hin2 & Hw2 & Hh2 & Hth2 & Hes2 & Hpos2).
  { rewrite Hout1. subst s1. destruct s; cbn in *; done. }
  { rewrite Hout1. subst s1. destruct s. cbn in *. intros k Hk. by apply Htout. }
  split_and!.
  - unfold sockets_in_order. split_and!; [| | |done].
    + by rewrite Hin2.
    + done.
    + rewrite Hin2. intros k Hk. destruct (Hpos1 k Hk) as [Hty Hp].
      split; [done|]. rewrite Hp. f_equal. symmetry.
      apply get_socket_pos_ext; try done.
      unfold OCBBlock.get_n_sockets. rewrite Hty.
      rewrite !bool_decide_true by done. by rewrite Hin2.
  - rewrite Hw2, Hw1. subst s1. destruct s; cbn in *; done.
  - rewrite Hin2, Hlen1. subst s1. destruct s; cbn in *; done.
  - rewrite Hlen2, Hout1. subst s1. destruct s; cbn in *; done.
Qed.

Lemma inputs_added_cons e events :
  OCBBlock.inputs_added F (e :: events)
  = ((if OCBBlock.adds_input F e then 1 else 0)
     + OCBBlock.inputs_added F events)%nat.
Proof.
  unfold OCBBlock.inputs_added. rewrite filter_cons.
  destruct (OCBBlock.adds_input F e); by case_decide.
Qed.

Lemma outputs_added_cons e events :
  OCBBlock.outputs_added F (e :: events)
  = ((if OCBBlock.adds_output F e then 1 else 0)
     + OCBBlock.outputs_added F events)%nat.
Proof.
  unfold OCBBlock.outputs_added. rewrite filter_cons.
  destruct (OCBBlock.adds_output F e); by case_decide.
Qed.

(** X14. However sockets are added to a block and its width assigned,
    the sockets of each side stay numbered 0, 1, 2, ... in the order
    they were added, a socket is on the input side exactly when its type
    is "input", every socket sits where [get_socket_pos] puts it in the
    block as it is, and each side has grown by the number of sockets
    added to it. *)
Theorem sockets_stay_in_order
    (events : list (OCBBlock.SocketEvent F)) (self : OCBBlock.State F) :
  sockets_in_order fadd fsub fmul fdiv of_nat self →
  let self' :=
    foldl (OCBBlock.apply_socket_event F fadd fsub fmul fdiv of_nat)
          self events in
  sockets_in_order fadd fsub fmul fdiv of_nat self'
  ∧ OCBBlock.get_n_sockets F "input" self'
    = (OCBBlock.get_n_sockets F "input" self
       + OCBBlock.inputs_added F events)%nat
  ∧ OCBBlock.get_n_sockets F "output" self'
    = (OCBBlock.get_n_sockets F "output" self
       + OCBBlock.outputs_added F events)%nat.
Proof.
  revert self. induction events as [|e events IH]; intros self Hinv.
  - cbn. split_and!; [done|..]; unfold OCBBlock.inputs_added,
      OCBBlock.outputs_added; cbn; lia.
  - cbn [foldl]. cbv zeta in IH |- *.
    rewrite inputs_added_cons, outputs_added_cons.
    unfold OCBBlock.get_n_sockets in *.
    rewrite !bool_decide_true in * by done.
    rewrite !(bool_decide_false ("output" = "input")) in * by done.
    destruct e as [r t|v]; cbn [OCBBlock.apply_socket_event
                                  OCBBlock.adds_input OCBBlock.adds_output].
    + destruct (add_socket_in_order r t self Hinv) as (Hinv' & Hli & Hlo).
      destruct (IH _ Hinv') as (Hfinal & Hin & Hout).
      split_and!; [done|..].
      * rewrite Hin, Hli. case_bool_decide; lia.
      * rewrite Hout, Hlo. repeat case_bool_decide; try lia; naive_solver.
    + destruct (width_setter_in_order v self Hinv) as (Hinv' & _ & Hli & Hlo).
      destruct (IH _ Hinv') as (Hfinal & Hin & Hout).
      split_and!; [done|..].
      * rewrite Hin, Hli. lia.
      * rewrite Hout, Hlo. lia.
Qed.

End SocketFacts.

(** ** The coherence checks of the conversion test *)

Section CoherenceTestFacts.

Import CoherenceTest.

Lemma check_sockets_spec socks : ∀ st,
  let st' := foldl check_socket st socks in
  block_id_set st' = block_id_set st
  ∧ (∀ x, x ∈ socket_id_set st' ↔
          x ∈ socket_id <$> socks ∨ x ∈ socket_id_set st)
  ∧ (passed st' = true ↔
     passed st = true ∧ NoDup (socket_id <$> socks)
     ∧ ∀ x, x ∈ socket_id <$> socks → x ∉ socket_id_set st).
Proof.
  induction socks as [|s socks IH]; intros st; cbv zeta.
  - cbn. split_and!; [done|set_solver|]. split; [|naive_solver].
    intros Hp. split_and!; [done|constructor|set_solver].
  - cbn [foldl]. destruct (IH (check_socket st s)) as (Hb & Hs & Hp).
    rewrite Hb, Hp. cbn [check_socket block_id_set socket_id_set passed].
    split_and!; [done| |].
    + intros x. rewrite Hs. cbn [check_socket socket_id_set].
      rewrite fmap_cons. set_solver.
    + rewrite fmap_cons, NoDup_cons, andb_true_iff, bool_decide_eq_true.
      set_solver.
Qed.

Lemma check_edges_spec es : ∀ st,
  passed (foldl check_edge st es) = true ↔
  passed st = true
  ∧ ∀ e, e ∈ es →
      JInt (source_block e) ∈ block_id_set st
      ∧ JInt (destination_block e) ∈ block_id_set st
      ∧ source_socket e ∈ socket_id_set st
      ∧ destination_socket e ∈ socket_id_set st.
Proof.
  induction es as [|e es IH]; intros st.
  - cbn. split; [|naive_solver]. intros Hp. split; [done|set_solver].
  - cbn [foldl]. rewrite IH.
    cbn [check_edge passed block_id_set socket_id_set].
    rewrite !andb_true_iff, !bool_decide_eq_true. split.
    + intros [((((Hp & H1) & H2) & H3) & H4) Hall]. split; [done|].
      intros e' [->|He']%elem_of_cons; [done|by apply Hall].
    + intros [Hp Hall]. split.
      * destruct (Hall e) as (? & ? & ? & ?); [set_solver|]. done.
      * intros e' He'. apply Hall. set_solver.
Qed.

Lemma check_block_spec st (b : gmap string JValue) :
  match check_block st b with
  | Some st' =>
      (∀ l, b !! "id" ≠ Some (JSockets l))
      ∧ (∀ z, b !! "sockets" ≠ Some (JInt z))
      ∧ (∀ v, v ∈ block_id_set st' ↔ b !! "id" = Some v ∨ v ∈ block_id_set st)
      ∧ (∀ x, x ∈ socket_id_set st' ↔
              x ∈ match b !! "sockets" ≫= as_sockets with
                  | Some socks => socket_id <$> socks
                  | None => []
                  end
              ∨ x ∈ socket_id_set st)
      ∧ (passed st' = true ↔
         passed st = true
         ∧ (∀ v, b !! "id" = Some v → v ∉ block_id_set st)
         ∧ NoDup match b !! "sockets" ≫= as_sockets with
                 | Some socks => socket_id <$> socks
                 | None => []
                 end
         ∧ ∀ x, x ∈ match b !! "sockets" ≫= as_sockets with
                    | Some socks => socket_id <$> socks
                    | None => []
                    end → x ∉ socket_id_set st)
  | None =>
      (∃ l, b !! "id" = Some (JSockets l)) ∨ (∃ z, b !! "sockets" = Some (JInt z))
  end.
Proof.
  unfold check_block.
  destruct (b !! "id") as [[s|z|l]|] eqn:Hid; cbn [mbind option_bind];
    try (left; by eexists);
    (destruct (b !! "sockets") as [[s'|z'|socks]|] eqn:Hsocks;
     cbn [mbind option_bind as_sockets];
     try (right; by eexists);
     [ | pose proof (check_sockets_spec socks) as Hspec | ]);
    try (specialize (Hspec (mkCheck (passed st && bool_decide (JStr s ∉ block_id_set st))
                              (JStr s :: block_id_set st) (socket_id_set st))));
    try (specialize (Hspec (mkCheck (passed st && bool_decide (JInt z ∉ block_id_set st))
                              (JInt z :: block_id_set st) (socket_id_set st))));
    try (specialize (Hspec st));
    try (cbv zeta in Hspec; destruct Hspec as (Hb & Hs & Hp);
         rewrite Hb, Hp);
    cbn [passed block_id_set socket_id_set];
    rewrite ?andb_true_iff, ?bool_decide_eq_true;
    (split_and!; [done|done| | |]);
    try (intros v; rewrite ?elem_of_cons; naive_solver);
    try (intros x; rewrite ?Hs; cbn [socket_id_set]; set_solver);
    try (split; [intros; split_and!; try constructor; set_solver
                | naive_solver]);
    try naive_solver.
Qed.

Lemma check_blocks_raise bs :
  foldl (λ acc block, acc ≫= λ st, check_block st block) None bs = None.
Proof. induction bs as [|b bs IH]; [done|]. apply IH. Qed.

Lemma check_blocks_spec bs : ∀ st,
  match foldl (λ acc block, acc ≫= λ st, check_block st block) (Some st) bs with
  | Some st' =>
      (∀ b, b ∈ bs → (∀ l, b !! "id" ≠ Some (JSockets l))
                     ∧ (∀ z, b !! "sockets" ≠ Some (JInt z)))
      ∧ (∀ v, v ∈ block_id_set st' ↔
              v ∈ doc_block_id_values (mkDocument bs []) ∨ v ∈ block_id_set st)
      ∧ (∀ x, x ∈ socket_id_set st' ↔
              x ∈ doc_socket_ids (mkDocument bs []) ∨ x ∈ socket_id_set st)
      ∧ (passed st' = true ↔
         passed st = true
         ∧ NoDup (doc_block_id_values (mkDocument bs []))
         ∧ (∀ v, v ∈ doc_block_id_values (mkDocument bs []) →
                 v ∉ block_id_set st)
         ∧ NoDup (doc_socket_ids (mkDocument bs []))
         ∧ (∀ x, x ∈ doc_socket_ids (mkDocument bs []) →
                 x ∉ socket_id_set st))
  | None =>
      ¬ ∀ b, b ∈ bs → (∀ l, b !! "id" ≠ Some (JSockets l))
                      ∧ (∀ z, b !! "sockets" ≠ Some (JInt z))
  end.
Proof.
  unfold doc_block_id_values, doc_socket_ids. cbn [doc_blocks].
  induction bs as [|b bs IH]; intros st.
  - cbn. split_and!; [set_solver|set_solver|set_solver|].
    split; [|naive_solver]. intros Hp.
    split_and!; [done|constructor|set_solver|constructor|set_solver].
  - cbn [foldl mbind option_bind].
    pose proof (check_block_spec st b) as Hb.
    destruct (check_block st b) as [st1|].
    + destruct Hb as (Hwt1 & Hwt2 & Hbs1 & Hss1 & Hp1).
      specialize (IH st1).
      destruct (foldl _ (Some st1) bs) as [st'|].
      * destruct IH as (Hwt & Hbs & Hss & Hp).
        cbn [omap list_omap mbind list_bind].
        split_and!.
        -- intros b' [->|Hb']%elem_of_cons; [done|by apply Hwt].
        -- intros v. rewrite Hbs, Hbs1.
           destruct (b !! "id") as [id|]; [|naive_solver].
           rewrite elem_of_cons. naive_solver.
        -- intros x. rewrite Hss, Hss1, elem_of_app. naive_solver.
        -- rewrite Hp, Hp1. rewrite NoDup_app.
           destruct (b !! "id") as [id|].
           ++ rewrite NoDup_cons. split.
              ** intros ((Hpst & Hid & Hnd & Hdis) & Hnd' & Hdis' & Hnd'' & Hdis'').
                 split_and!; try done.
                 --- intros Hin. apply (Hdis' id Hin). apply Hbs1. by left.
                 --- intros v [->|Hv]%elem_of_cons; [by apply Hid|].
                     intros Hin. apply (Hdis' v Hv). apply Hbs1. by right.
                 --- intros x Hx Hx'. apply (Hdis'' x Hx'). apply Hss1. by left.
                 --- intros x [Hx|Hx]%elem_of_app; [by apply Hdis|].
                     intros Hin. apply (Hdis'' x Hx). apply Hss1. by right.
              ** intros (Hpst & [Hid Hnd'] & Hdis' & (Hnd & Hcross & Hnd'') & Hdis'').
                 split_and!; try done.
                 --- intros v [= <-]. apply Hdis'. set_solver.
                 --- intros x Hx. apply Hdis''. set_solver.
                 --- intros v Hv [[= <-]|Hin]%Hbs1; [done|].
                     apply (Hdis' v); [set_solver|done].
                 --- intros x Hx [Hin|Hin]%Hss1.
                     +++ by apply (Hcross x Hin).
                     +++ apply (Hdis'' x); [set_solver|done].
           ++ split.
              ** intros ((Hpst & Hid & Hnd & Hdis) & Hnd' & Hdis' & Hnd'' & Hdis'').
                 split_and!; try done.
                 --- intros v Hv Hin. apply (Hdis' v Hv). apply Hbs1. by right.
                 --- intros x Hx Hx'. apply (Hdis'' x Hx'). apply Hss1. by left.
                 --- intros x [Hx|Hx]%elem_of_app; [by apply Hdis|].
                     intros Hin. apply (Hdis'' x Hx). apply Hss1. by right.
              ** intros (Hpst & Hnd' & Hdis' & (Hnd & Hcross & Hnd'') & Hdis'').
                 split_and!; try done.
                 --- intros x Hx. apply Hdis''. set_solver.
                 --- intros v Hv [[=]|Hin]%Hbs1. by apply (Hdis' v).
                 --- intros x Hx [Hin|Hin]%Hss1.
                     +++ by apply (Hcross x Hin).
                     +++ apply (Hdis'' x); [set_solver|done].
      * intros Hall. apply IH. intros b' Hb'. apply Hall. set_solver.
    + rewrite check_blocks_raise. intros Hall.
      destruct (Hall b) as [H1 H2]; [set_solver|].
      destruct Hb as [[l Hl]|[z Hz]]; [by apply (H1 l)|by apply (H2 z)].
Qed.

(** X15. Checks 3 and 4 of the conversion test run to their end and
    all hold exactly when no block of the document has a list for id or
    an integer for sockets, the ids of the blocks are pairwise distinct,
    the ids of the sockets are pairwise distinct over the whole
    document, and both ends of every edge name a block id and a socket
    id of the document. *)
Theorem check_ids_and_edges_sound_and_complete (ipyg_data : Document) :
  check_ids_and_edges ipyg_data = Some true ↔
  ids_well_typed ipyg_data
  ∧ NoDup (doc_block_id_values ipyg_data)
  ∧ NoDup (doc_socket_ids ipyg_data)
  ∧ ∀ e, e ∈ doc_edges ipyg_data →
      JInt (source_block e) ∈ doc_block_id_values ipyg_data
      ∧ JInt (destination_block e) ∈ doc_block_id_values ipyg_data
      ∧ source_socket e ∈ doc_socket_ids ipyg_data
      ∧ destination_socket e ∈ doc_socket_ids ipyg_data.
Proof.
  destruct ipyg_data as [bs es]. unfold check_ids_and_edges, ids_well_typed.
  cbn [doc_blocks doc_edges].
  pose proof (check_blocks_spec bs (mkCheck true [] [])) as Hspec.
  destruct (foldl _ (Some (mkCheck true [] [])) bs) as [st'|];
    cbn [mbind option_bind].
  - destruct Hspec as (Hwt & Hbs & Hss & Hp).
    assert (doc_block_id_values (mkDocument bs es)
            = doc_block_id_values (mkDocument bs [])) as -> by done.
    assert (doc_socket_ids (mkDocument bs es)
            = doc_socket_ids (mkDocument bs [])) as -> by done.
    cbn [passed block_id_set socket_id_set] in *.
    split.
    + intros [= Hpass]. apply check_edges_spec in Hpass as [Hpass Hedges].
      apply Hp in Hpass as (_ & Hnd & _ & Hnd' & _).
      split_and!; try done. intros e He.
      destruct (Hedges e He) as (H1 & H2 & H3 & H4).
      apply Hbs in H1, H2. apply Hss in H3, H4. set_solver.
    + intros (_ & Hnd & Hnd' & Hedges). f_equal.
      apply check_edges_spec. split.
      * apply Hp. split_and!; try done; set_solver.
      * intros e He. destruct (Hedges e He) as (H1 & H2 & H3 & H4).
        rewrite !Hbs, !Hss. naive_solver.
  - split; [done|]. intros (Hwt & _). by destruct Hspec.
Qed.

End CoherenceTestFacts.

(** ** Instances *)

Lemma output_panel_closed_iff_no_output_witness :
  let self' := OCBCodeBlockPanel.apply_events (λ s, s)
                 (mkPanel new_code_state None) sample_output_events in
  is_Some (output_panel (code_state self'))
  ∧ (output_closed (code_state self') = true
     ↔ _stdout (code_state self') = EmptyString).
Proof.
  apply (output_panel_closed_iff_no_output (λ s, s)
           (mkPanel new_code_state None) sample_output_events).
  - exists EmptyString. reflexivity.
  - split; reflexivity.
Defined.

Lemma output_panel_close_then_open_witness :
  let closed := OCBCodeBlock.stdout_setter (λ s, s) EmptyString open_code_state in
  let opened := OCBCodeBlock.stdout_setter (λ s, s) "2" closed in
  output_closed closed = true ∧ splitter closed = [1; 0]
  ∧ _splitter_size closed = splitter open_code_state
  ∧ output_closed opened = false ∧ splitter opened = splitter open_code_state.
Proof.
  apply (output_panel_close_then_open (λ s, s) open_code_state "2").
  - exists "1". reflexivity.
  - reflexivity.
  - discriminate.
Defined.

Lemma handle_fragments_of_whole_lines_witness :
  let self' := OCBCodeBlockPanel.handle_fragments (λ s, s) sample_lines
                 new_code_state in
  _cached_stdout self'
  = _cached_stdout new_code_state +:+ concat_fragments sample_lines
  ∧ (sample_lines ≠ [] →
     _stdout self'
     = _cached_stdout new_code_state +:+ concat_fragments sample_lines).
Proof.
  apply (handle_fragments_of_whole_lines (λ s, s) sample_lines new_code_state).
  repeat constructor.
  - exists "a". reflexivity.
  - exists ("b" +:+ OCBCodeBlock.NEWLINE +:+ "c"). reflexivity.
Defined.

Lemma handle_image_shows_image_witness :
  let self' := OCBCodeBlock.handle_image (λ s, s) "AAAA" new_code_state in
  _stdout self' = "<img>" +:+ "AAAA"
  ∧ output_panel self' = Some (OCBCodeBlock.b64_to_html "AAAA")
  ∧ output_closed self' = false
  ∧ _cached_stdout self' = _cached_stdout new_code_state
  ∧ _stdout (OCBCodeBlock.handle_stdout (λ s, s) "x" self')
    = _cached_stdout new_code_state +:+ "x".
Proof.
  apply (handle_image_shows_image (λ s, s) "AAAA" "x" new_code_state).
  exists EmptyString. reflexivity.
Defined.

Lemma source_setter_get_and_repeat_witness :
  let sc' := BFSVariant.source_setter 1 "a = 2" chain_scene in
  BFSVariant.source 1 sc' = Some "a = 2"
  ∧ BFSVariant.source_setter 1 "a = 2" sc' = sc'.
Proof.
  apply (source_setter_get_and_repeat chain_scene 1
           (run_code_block "a = 1" 10 11)
           (with_source_editor "a = 1" (with_source "a = 1" new_code_state))
           "a = 2"); reflexivity.
Defined.

Lemma source_setter_commute_witness :
  BFSVariant.source_setter 1 "a = 2"
    (BFSVariant.source_setter 3 "c = 1" chain_scene)
  = BFSVariant.source_setter 3 "c = 1"
      (BFSVariant.source_setter 1 "a = 2" chain_scene).
Proof.
  apply (source_setter_commute chain_scene 1 3 "a = 2" "c = 1"). discriminate.
Defined.

Lemma simple_new_state_constructed :
  SimpleCodeBlock.constructed SimpleCodeBlock.new_state.
Proof. split_and!; by eexists. Defined.

Lemma simple_stdout_setter_shows_text_witness :
  ∃ self',
    SimpleCodeBlock.stdout_setter (λ s, s) "x" SimpleCodeBlock.new_state
    = Some self'
    ∧ SimpleCodeBlock._stdout self' = "x"
    ∧ SimpleCodeBlock._image self' = EmptyString
    ∧ SimpleCodeBlock.output_panel self'
      = Some (PyStr.replace "background-color: #000000"
                "background-color: #434343"
                (SimpleCodeBlock.remove_backspaces "x"))
    ∧ PyStr.chars (SimpleCodeBlock.remove_backspaces "x")
      = filter (λ a, a ≠ PyStr.BS) (PyStr.chars "x")
    ∧ (SimpleCodeBlock.output_closed self' = Some true ↔ "x" = EmptyString)
    ∧ SimpleCodeBlock.constructed self'.
Proof.
  apply (simple_stdout_setter_shows_text (λ s, s) "x" SimpleCodeBlock.new_state).
  apply simple_new_state_constructed.
Defined.

Lemma simple_image_setter_shows_image_witness :
  ∃ self',
    SimpleCodeBlock.image_setter "AAAA" SimpleCodeBlock.new_state = Some self'
    ∧ SimpleCodeBlock._image self' = "AAAA"
    ∧ SimpleCodeBlock._stdout self'
      = SimpleCodeBlock._stdout SimpleCodeBlock.new_state
    ∧ (SimpleCodeBlock.output_closed SimpleCodeBlock.new_state = Some false →
       SimpleCodeBlock.output_closed self' = Some false)
    ∧ ("AAAA" ≠ EmptyString →
         SimpleCodeBlock.output_closed self' = Some false
         ∧ SimpleCodeBlock.output_panel self'
           = Some ("<img src=" +:+ OCBCodeBlock.DQUOTE
                     +:+ "data:image/png;base64," +:+ "AAAA"
                     +:+ OCBCodeBlock.DQUOTE +:+ ">"))
    ∧ ("AAAA" = EmptyString →
       self' = SimpleCodeBlock.with_image EmptyString SimpleCodeBlock.new_state)
    ∧ SimpleCodeBlock.constructed self'.
Proof.
  apply (simple_image_setter_shows_image "AAAA" SimpleCodeBlock.new_state).
  apply simple_new_state_constructed.
Defined.

Lemma empty_block_in_order :
  sockets_in_order Z.add Z.sub Z.mul Z.div Z.of_nat empty_block.
Proof.
  unfold sockets_in_order, OCBBlock.numbered, empty_block. cbn.
  split_and!.
  - intros i socket Hi. by rewrite lookup_nil in Hi.
  - intros i socket Hi. by rewrite lookup_nil in Hi.
  - intros socket Hs. by apply elem_of_nil in Hs.
  - intros socket Hs. by apply elem_of_nil in Hs.
Defined.

Lemma sockets_stay_in_order_witness :
  let self' :=
    foldl (OCBBlock.apply_socket_event Z Z.add Z.sub Z.mul Z.div Z.of_nat)
          empty_block sample_socket_events in
  sockets_in_order Z.add Z.sub Z.mul Z.div Z.of_nat self'
  ∧ OCBBlock.get_n_sockets Z "input" self'
    = (OCBBlock.get_n_sockets Z "input" empty_block
       + OCBBlock.inputs_added Z sample_socket_events)%nat
  ∧ OCBBlock.get_n_sockets Z "output" self'
    = (OCBBlock.get_n_sockets Z "output" empty_block
       + OCBBlock.outputs_added Z sample_socket_events)%nat.
Proof.
  apply (sockets_stay_in_order Z Z.add Z.sub Z.mul Z.div Z.of_nat
           sample_socket_events empty_block).
  apply empty_block_in_order.
Defined.

Example sample_sockets_after :
  let self' :=
    foldl (OCBBlock.apply_socket_event Z Z.add Z.sub Z.mul Z.div Z.of_nat)
          empty_block sample_socket_events in
  OCBBlock.index Z <$> OCBBlock.sockets_in Z self' = [0; 1]%nat
  ∧ OCBBlock.pos Z <$> OCBBlock.sockets_in Z self'
    = [Some (0, 42); Some (0, 218)]
  ∧ OCBBlock.pos Z <$> OCBBlock.sockets_out Z self' = [Some (200, 42)].
Proof. vm_compute. done. Qed.

Example sample_document_passes_checks :
  CoherenceTest.check_ids_and_edges
    (ipynb_to_ipyg sample_names 60 sample_notebook) = Some true
  ∧ CoherenceTest.check_ids_and_edges
      (mkDocument [ {[ "id" := JInt 1 ]}; {[ "id" := JInt 1 ]} ] []) = Some false
  ∧ CoherenceTest.check_ids_and_edges
      (mkDocument [ {[ "id" := JInt 1 ]} ] [mkEdge 1 2 1 2]) = Some false
  ∧ CoherenceTest.check_ids_and_edges
      (mkDocument [ {[ "sockets" := JInt 1 ]} ] []) = None.
Proof. vm_compute. done. Qed.
